(** * micro_taskman: a cooperative task manager with one-shot timers

    Shallow embedding of [taskman.c] / [taskman.h].

    - [uint32_t] values are integers of [Z] with the wrap-around of the C
      arithmetic written out ([wrap32]); [uint8_t] flags are [Z] as well and
      are tested for truth the way C does (non-zero).
    - A [void ( * )(void)] function pointer is its address; [NULL] is 0.
    - The static arrays [tasks] and [timers] are lists indexed with stdpp's
      lookup and insert; the file-level [millis] and the function-level
      static [taskExecuted] of [tmUpdate] are fields of the same record.
    - What a callback does when it is called is not part of the library:
      it is a parameter ([run_cb] for function pointers, [sIdleTask] for the
      weak idle hook), a function on the library's state.  Every call the
      library makes is recorded in a log next to the state. *)

From Stdlib Require Import ZArith List Lia Bool.
From stdpp Require Import base list.
Import ListNotations.

Open Scope Z_scope.

(** ** Configuration ([taskman.h]) *)

Definition MAX_TASKS : nat := 10.
Definition MAX_TIMERS : nat := 5.

(** ** Machine integers and pointers *)

Definition wrap32 (z : Z) : Z := z mod 2 ^ 32.

Definition u32 (z : Z) : Prop := 0 <= z < 2 ^ 32.

Definition fptr : Type := Z.

Definition NULL : fptr := 0.

(** C truth of a scalar: anything but zero. *)
Definition truthy (z : Z) : bool := negb (z =? 0).

(** ** Data model *)

Record Task_s : Type := mkTask {
  taskFunc : fptr;
  period_ms : Z;
  delay_ms : Z;
  isReady : Z
}.

Record OneShotTimer_s : Type := mkTimer {
  active : Z;
  start_time : Z;
  delay : Z;
  callback : fptr
}.

Record State : Type := mkState {
  tasks : list Task_s;
  timers : list OneShotTimer_s;
  millis : Z;
  taskExecuted : Z
}.

(** Static storage is zero-initialised. *)
Definition zero_task : Task_s := mkTask NULL 0 0 0.
Definition zero_timer : OneShotTimer_s := mkTimer 0 0 0 NULL.

#[global] Instance Task_s_inhabited : Inhabited Task_s := populate zero_task.
#[global] Instance OneShotTimer_s_inhabited : Inhabited OneShotTimer_s :=
  populate zero_timer.

Definition init_state : State :=
  mkState (replicate MAX_TASKS zero_task) (replicate MAX_TIMERS zero_timer) 0 0.

(** The arrays keep their declared sizes. *)
Definition wf (s : State) : Prop :=
  length (tasks s) = MAX_TASKS /\ length (timers s) = MAX_TIMERS.

(** [tasks[i]] and [timers[i]] as rvalues. *)
Definition task_at (i : nat) (s : State) : Task_s := tasks s !!! i.
Definition timer_at (i : nat) (s : State) : OneShotTimer_s := timers s !!! i.

(** [tasks[i] = t] and [timers[i] = t]. *)
Definition set_task (i : nat) (t : Task_s) (s : State) : State :=
  mkState (<[i := t]> (tasks s)) (timers s) (millis s) (taskExecuted s).

Definition set_timer (i : nat) (t : OneShotTimer_s) (s : State) : State :=
  mkState (tasks s) (<[i := t]> (timers s)) (millis s) (taskExecuted s).

Definition set_millis (m : Z) (s : State) : State :=
  mkState (tasks s) (timers s) m (taskExecuted s).

Definition set_taskExecuted (b : Z) (s : State) : State :=
  mkState (tasks s) (timers s) (millis s) b.

(** ** Loop shapes of the source *)

(** [for (i = lo; i < lo + n; i++) if (p i) return i;] falling through to
    [None]. *)
Fixpoint first_index (p : nat -> bool) (lo n : nat) : option nat :=
  match n with
  | O => None
  | S n' => if p lo then Some lo else first_index p (S lo) n'
  end.

(** [for (i = lo; i < lo + n; i++) step i;] on a threaded state. *)
Fixpoint for_loop {A : Type} (step : nat -> A -> A) (lo n : nat) (a : A) : A :=
  match n with
  | O => a
  | S n' => for_loop step (S lo) n' (step lo a)
  end.

(** ** Task table *)

Definition get_millis (s : State) : Z := millis s.

Definition tmAddTask (func : fptr) (period : Z) (s : State) : Z * State :=
  match first_index (fun i => taskFunc (task_at i s) =? 0) 0 MAX_TASKS with
  | Some i => (Z.of_nat i, set_task i (mkTask func period period 0) s)
  | None => (-1, s)
  end.

Definition tmUpdateTask (func : fptr) (period : Z) (s : State) : Z * State :=
  match first_index (fun i => taskFunc (task_at i s) =? func) 0 MAX_TASKS with
  | Some i =>
      (0, set_task i (mkTask (taskFunc (task_at i s)) period period 0) s)
  | None => (-1, s)
  end.

Definition tmDeleteTask (func : fptr) (s : State) : Z * State :=
  match first_index (fun i => taskFunc (task_at i s) =? func) 0 MAX_TASKS with
  | Some i =>
      let t := task_at i s in
      (0, set_task i (mkTask 0 (period_ms t) (delay_ms t) (isReady t)) s)
  | None => (-1, s)
  end.

(** ** Non-blocking delay

    The pointee of [timestamp] is passed in and handed back next to the
    result. *)
Definition tmDelay_ms (timestamp : Z) (dly : Z) (s : State) : bool * Z :=
  if dly <=? wrap32 (millis s - timestamp)
  then (true, millis s)
  else (false, timestamp).

(** ** One-shot timers: arming and deleting *)

Definition tmTimerStartOnce (d_ms : Z) (func : fptr) (s : State) : Z * State :=
  match first_index (fun i => callback (timer_at i s) =? func) 0 MAX_TIMERS with
  | Some i =>
      let t := timer_at i s in
      (0, set_timer i
            (if truthy (active t)
             then mkTimer (active t) (start_time t) d_ms (callback t)
             else mkTimer 1 (millis s) d_ms (callback t)) s)
  | None =>
      match first_index (fun i => callback (timer_at i s) =? 0) 0 MAX_TIMERS with
      | Some i => (0, set_timer i (mkTimer 1 (millis s) d_ms func) s)
      | None => (-1, s)
      end
  end.

Definition tmTimerDelete (func : fptr) (s : State) : Z * State :=
  match first_index (fun i => callback (timer_at i s) =? func) 0 MAX_TIMERS with
  | Some i =>
      let t := timer_at i s in
      (0, set_timer i (mkTimer (active t) (start_time t) (delay t) 0) s)
  | None => (-1, s)
  end.

(** ** Calls made by the library *)

Inductive event : Type :=
| RunTask (f : fptr)      (* [tasks[i].taskFunc()] in [tmUpdate] *)
| FireTimer (f : fptr)    (* [timers[i].callback()] in [tmTimerProcess] *)
| RunIdle.                (* [sIdleTask()] in [tmUpdate] *)

Definition event_eqb (a b : event) : bool :=
  match a, b with
  | RunTask f, RunTask g => f =? g
  | FireTimer f, FireTimer g => f =? g
  | RunIdle, RunIdle => true
  | _, _ => false
  end.

(** Number of times [e] occurs in a log. *)
Fixpoint occurrences (e : event) (l : list event) : nat :=
  match l with
  | [] => O
  | x :: r => ((if event_eqb e x then 1 else 0) + occurrences e r)%nat
  end.

Record World : Type := mkWorld {
  st : State;
  log : list event
}.

(** One step of the countdown loop of [tmTick]: the body for [tasks[i]]. *)
Definition tick_task (t : Task_s) : Task_s :=
  if truthy (taskFunc t) then
    if 0 <? delay_ms t then
      let d := wrap32 (delay_ms t - 1) in
      if d =? 0
      then mkTask (taskFunc t) (period_ms t) (period_ms t) 1
      else mkTask (taskFunc t) (period_ms t) d (isReady t)
    else t
  else t.

Definition tick_tasks (s : State) : State :=
  for_loop (fun i s => set_task i (tick_task (task_at i s)) s) 0 MAX_TASKS s.

(** The result of a timer's expiry test in [tmTimerProcess]. *)
Definition expired (t : OneShotTimer_s) (now : Z) : bool :=
  truthy (active t) && (delay t <=? wrap32 (now - start_time t)).

Inductive op : Type := Tick | Update.

(** Number of [Tick]s in a schedule. *)
Fixpoint ticks (ops : list op) : nat :=
  match ops with
  | [] => O
  | Tick :: r => S (ticks r)
  | Update :: r => ticks r
  end.

Section Dispatch.

(** What the code behind a function pointer does to the library's state,
    and what the idle hook in force does. *)
Variable run_cb : fptr -> State -> State.
Variable sIdleTask : State -> State.

Definition call (e : event) (f : State -> State) (w : World) : World :=
  mkWorld (f (st w)) (log w ++ [e]).

Definition timer_step (i : nat) (w : World) : World :=
  let t := timer_at i (st w) in
  if expired t (millis (st w)) then
    let w1 :=
      mkWorld (set_timer i (mkTimer 0 (start_time t) (delay t) (callback t)) (st w))
              (log w) in
    let cb := callback (timer_at i (st w1)) in
    if truthy cb then call (FireTimer cb) (run_cb cb) w1 else w1
  else w.

Definition tmTimerProcess (w : World) : World :=
  for_loop timer_step 0 MAX_TIMERS w.

Definition tmTick (w : World) : World :=
  let w1 := mkWorld (tick_tasks (st w)) (log w) in
  let w2 := tmTimerProcess w1 in
  mkWorld (set_millis (wrap32 (millis (st w2) + 1)) (st w2)) (log w2).

Definition update_step (i : nat) (w : World) : World :=
  let t := task_at i (st w) in
  if truthy (taskFunc t) && truthy (isReady t) then
    let w1 :=
      mkWorld (set_task i (mkTask (taskFunc t) (period_ms t) (delay_ms t) 0) (st w))
              (log w) in
    let f := taskFunc (task_at i (st w1)) in
    let w2 := call (RunTask f) (run_cb f) w1 in
    mkWorld (set_taskExecuted 1 (st w2)) (log w2)
  else w.

Definition tmUpdate (w : World) : World :=
  let w1 := for_loop update_step 0 MAX_TASKS w in
  if truthy (taskExecuted (st w1)) then w1 else call RunIdle sIdleTask w1.

(** A schedule of [tmTick] and [tmUpdate] calls, run left to right from
    [w]. *)
Fixpoint run (w : World) (ops : list op) : World :=
  match ops with
  | [] => w
  | Tick :: r => run (tmTick w) r
  | Update :: r => run (tmUpdate w) r
  end.

End Dispatch.

(** [tasks[i]] is occupied and flagged: the guard of the loop of
    [tmUpdate]. *)
Definition task_ready (i : nat) (s : State) : bool :=
  truthy (taskFunc (task_at i s)) && truthy (isReady (task_at i s)).

(** Successive [tmAddTask] calls, results in call order. *)
Fixpoint add_tasks (l : list (fptr * Z)) (s : State) : list Z * State :=
  match l with
  | [] => ([], s)
  | (f, p) :: r =>
      let (k, s1) := tmAddTask f p s in
      let (ks, s2) := add_tasks r s1 in
      (k :: ks, s2)
  end.


(** The first [k] slots of the task table are occupied and the others
    are free. *)
Definition filled_to (k : nat) (s : State) : Prop :=
  forall j, (j < MAX_TASKS)%nat ->
    (taskFunc (task_at j s) = NULL <-> (k <= j)%nat).

(** ** What a callback leaves alone

    A callback may call back into the library or not touch it at all; the
    statements about one slot say which callbacks they allow. *)

(** [h] does not change [tasks[i]]. *)
Definition keeps_task (i : nat) (h : State -> State) : Prop :=
  forall s, tasks (h s) !! i = tasks s !! i.

(** No timer slot other than [i] holds the function pointer [f]. *)
Definition sole_timer (i : nat) (f : fptr) (s : State) : Prop :=
  forall j, (j < MAX_TIMERS)%nat -> j <> i -> callback (timer_at j s) <> f.

(** [h] does not change [timers[i]] or the clock, and does not make
    another timer slot hold [f]. *)
Definition keeps_timer (i : nat) (f : fptr) (h : State -> State) : Prop :=
  forall s,
    timers (h s) !! i = timers s !! i /\
    millis (h s) = millis s /\
    (sole_timer i f s -> sole_timer i f (h s)).

(** [h] does not change the clock. *)
Definition keeps_millis (h : State -> State) : Prop :=
  forall s, millis (h s) = millis s.

(** What the loop of [tmUpdate] does to one slot. *)
Definition consume_task (t : Task_s) : Task_s :=
  if truthy (taskFunc t) && truthy (isReady t)
  then mkTask (taskFunc t) (period_ms t) (delay_ms t) 0
  else t.

(** What the loop of [tmTimerProcess] does to one slot when the clock
    reads [now]. *)
Definition fire_timer (now : Z) (t : OneShotTimer_s) : OneShotTimer_s :=
  if expired t now
  then mkTimer 0 (start_time t) (delay t) (callback t)
  else t.

(** ** Callbacks of the scenarios

    After the examples of [taskman.h]: a task that arms a one-shot timer
    ([vTaskLedFlash]) and a task that changes another task's period
    ([vTaskKey]).  All other function pointers stand for code that does not
    call the library. *)

Definition vTaskLedOff : fptr := 8.
Definition vTaskLedFlash : fptr := 9.
Definition vTaskLed : fptr := 7.
Definition vTaskKey : fptr := 5.

(** Callbacks that only touch the timer table. *)
Definition arming_cb (g : fptr) (s : State) : State :=
  if g =? vTaskLedFlash then snd (tmTimerStartOnce 20 vTaskLedOff s) else s.

(** Callbacks that only touch the task table. *)
Definition retiming_cb (g : fptr) (s : State) : State :=
  if g =? vTaskKey then snd (tmUpdateTask vTaskLed 200 s) else s.

(** Callbacks and an idle hook that do nothing to the library. *)
Definition quiet_cb (g : fptr) (s : State) : State := s.
Definition quiet_idle (s : State) : State := s.

(** No slot of the task table is occupied and flagged. *)
Definition nothing_ready (s : State) : bool :=
  forallb (fun i => negb (task_ready i s)) (seq 0 MAX_TASKS).

(** ** States of the scenarios *)

(** [vTaskLed] every 500 ms in slot 0, [vTaskKey] every millisecond in
    slot 1. *)
Definition demo_state : State :=
  snd (tmAddTask vTaskKey 1 (snd (tmAddTask vTaskLed 500 init_state))).

(** A table that is empty again after use: [vTaskLed] added, then
    deleted.  Slot 0 is free and still has the period and counter of the
    deleted task. *)
Definition emptied_state : State :=
  snd (tmDeleteTask vTaskLed (snd (tmAddTask vTaskLed 500 init_state))).

(** [vTaskLedOff] armed at clock 0 for 10 ms, three ticks ago. *)
Definition armed_world : World :=
  run retiming_cb quiet_idle
    (mkWorld (snd (tmTimerStartOnce 10 vTaskLedOff demo_state)) [])
    [Tick; Tick; Tick].

(** One task, one tick after it was added with a period of 1 ms: the task
    is flagged and no [tmUpdate] has run yet. *)
Definition flagged_world : World :=
  tmTick quiet_cb (mkWorld (snd (tmAddTask vTaskLed 1 init_state)) []).

(** ** Predicates of the further properties *)

(** The counter of a task slot is within its period, and is not 0 when
    the period is not. *)
Definition countdown_ok (t : Task_s) : Prop :=
  0 <= delay_ms t <= period_ms t /\ (0 < period_ms t -> 0 < delay_ms t).

(** [h] does not change the task table. *)
Definition keeps_tasks (h : State -> State) : Prop :=
  forall s, tasks (h s) = tasks s.

(** The calls of the flagged tasks of slots [lo], ..., [lo + n - 1], in
    this order. *)
Fixpoint ready_calls (s : State) (lo n : nat) : list event :=
  match n with
  | O => []
  | S n' =>
      (if task_ready lo s then [RunTask (taskFunc (task_at lo s))] else [])
      ++ ready_calls s (S lo) n'
  end.

(** No two timer slots hold the same non-null function pointer. *)
Definition timers_distinct (s : State) : Prop :=
  forall a b, (a < MAX_TIMERS)%nat -> (b < MAX_TIMERS)%nat -> a <> b ->
    callback (timer_at a s) <> NULL ->
    callback (timer_at a s) <> callback (timer_at b s).

(** No timer slot, respectively no task slot, holds [f]. *)
Definition no_timer (f : fptr) (s : State) : Prop :=
  forall j, (j < MAX_TIMERS)%nat -> callback (timer_at j s) <> f.

Definition no_task (f : fptr) (s : State) : Prop :=
  forall j, (j < MAX_TASKS)%nat -> taskFunc (task_at j s) <> f.

(** The timer slots hold the function pointers of [fs], in this order, and
    the slots after them are free. *)
Definition timers_hold (fs : list fptr) (s : State) : Prop :=
  forall j, (j < MAX_TIMERS)%nat -> callback (timer_at j s) = nth j fs NULL.

(** Successive [tmTimerStartOnce] calls, results in call order. *)
Fixpoint start_timers (l : list (Z * fptr)) (s : State) : list Z * State :=
  match l with
  | [] => ([], s)
  | (d, f) :: r =>
      let (k, s1) := tmTimerStartOnce d f s in
      let (ks, s2) := start_timers r s1 in
      (k :: ks, s2)
  end.

(** A loop that calls [tmTick] and then polls [tmDelay_ms] on its own
    timestamp, [n] times; the answers in order. *)
Fixpoint poll_each_tick (run_cb : fptr -> State -> State) (n : nat)
    (dly : Z) (timestamp : Z) (w : World) : list bool :=
  match n with
  | O => []
  | S n' =>
      let r := tmDelay_ms timestamp dly (st (tmTick run_cb w)) in
      fst r :: poll_each_tick run_cb n' dly (snd r) (tmTick run_cb w)
  end.


(** ** Loops *)

Lemma first_index_Some (p : nat -> bool) (n lo k : nat) :
  first_index p lo n = Some k <->
  (lo <= k < lo + n)%nat /\ p k = true /\
  (forall j, (lo <= j < k)%nat -> p j = false).
Proof.
  revert lo. induction n as [|n IH]; intros lo; simpl.
  - split; [discriminate | lia].
  - destruct (p lo) eqn:E.
    + split.
      * intros [= <-]. repeat split; try lia; auto; intros; lia.
      * intros (Hr & Hk & Hm). f_equal.
        destruct (Nat.eq_dec lo k) as [|Hne]; [done|].
        rewrite (Hm lo) in E; [discriminate | lia].
    + rewrite IH. split.
      * intros (Hr & Hk & Hm). repeat split; try lia; auto.
        intros j Hj. destruct (Nat.eq_dec j lo) as [->|]; [done|].
        apply Hm; lia.
      * intros (Hr & Hk & Hm).
        assert (k <> lo) by (intros ->; congruence).
        repeat split; try lia; auto. intros j Hj. apply Hm; lia.
Qed.

Lemma first_index_None (p : nat -> bool) (n lo : nat) :
  first_index p lo n = None <->
  (forall j, (lo <= j < lo + n)%nat -> p j = false).
Proof.
  revert lo. induction n as [|n IH]; intros lo; simpl.
  - split; [intros; lia | done].
  - destruct (p lo) eqn:E.
    + split; [discriminate|]. intros H. rewrite H in E; [discriminate | lia].
    + rewrite IH. split.
      * intros H j Hj. destruct (Nat.eq_dec j lo) as [->|]; [done|].
        apply H; lia.
      * intros H j Hj. apply H; lia.
Qed.

Lemma first_index_ext (p q : nat -> bool) (n lo : nat) :
  (forall j, (lo <= j < lo + n)%nat -> p j = q j) ->
  first_index p lo n = first_index q lo n.
Proof.
  revert lo. induction n as [|n IH]; intros lo H; simpl; [done|].
  rewrite (H lo) by lia. destruct (q lo); [done|].
  apply IH. intros j Hj. apply H. lia.
Qed.

Lemma for_loop_snoc {A : Type} (step : nat -> A -> A) (n lo : nat) (a : A) :
  for_loop step lo (S n) a = step (lo + n)%nat (for_loop step lo n a).
Proof.
  revert lo a. induction n as [|n IH]; intros lo a.
  - simpl. by rewrite Nat.add_0_r.
  - change (for_loop step lo (S (S n)) a)
      with (for_loop step (S lo) (S n) (step lo a)).
    rewrite IH. simpl. by rewrite Nat.add_succ_r.
Qed.

(** Invariant rule: [P j] holds before iteration [j]. *)
Lemma for_loop_inv {A : Type} (P : nat -> A -> Prop) (step : nat -> A -> A)
    (n lo : nat) (a : A) :
  P lo a ->
  (forall j x, (lo <= j < lo + n)%nat -> P j x -> P (S j) (step j x)) ->
  P (lo + n)%nat (for_loop step lo n a).
Proof.
  revert lo a. induction n as [|n IH]; intros lo a H0 Hs; simpl.
  - by rewrite Nat.add_0_r.
  - rewrite <- Nat.add_succ_comm. apply IH.
    + apply Hs; [lia | done].
    + intros j x Hj. apply Hs. lia.
Qed.

(** A loop run from 0: [P j] holds before iteration [j]. *)
Lemma for_loop_inv0 {A : Type} (P : nat -> A -> Prop) (step : nat -> A -> A)
    (n : nat) (a : A) :
  P 0%nat a ->
  (forall j x, (j < n)%nat -> P j x -> P (S j) (step j x)) ->
  P n (for_loop step 0 n a).
Proof.
  intros H0 Hs. apply (for_loop_inv P step n 0 a H0).
  intros j x Hj. apply Hs. lia.
Qed.

Arguments first_index p lo n : simpl never.
Arguments for_loop {A} step lo n a : simpl never.

(** ** Reading after writing *)

Lemma task_at_set_task_eq i t s :
  (i < length (tasks s))%nat -> task_at i (set_task i t s) = t.
Proof. intros H. unfold task_at, set_task; simpl. by rewrite list_lookup_total_insert_eq. Qed.

Lemma task_at_set_task_ne i j t s :
  i <> j -> task_at j (set_task i t s) = task_at j s.
Proof. intros H. unfold task_at, set_task; simpl. by rewrite list_lookup_total_insert_ne. Qed.

Lemma timer_at_set_timer_eq i t s :
  (i < length (timers s))%nat -> timer_at i (set_timer i t s) = t.
Proof. intros H. unfold timer_at, set_timer; simpl. by rewrite list_lookup_total_insert_eq. Qed.

Lemma timer_at_set_timer_ne i j t s :
  i <> j -> timer_at j (set_timer i t s) = timer_at j s.
Proof. intros H. unfold timer_at, set_timer; simpl. by rewrite list_lookup_total_insert_ne. Qed.

Lemma wf_set_task i t s : wf s -> wf (set_task i t s).
Proof. intros [H1 H2]. split; simpl; [by rewrite length_insert | done]. Qed.

Lemma wf_set_timer i t s : wf s -> wf (set_timer i t s).
Proof. intros [H1 H2]. split; simpl; [done | by rewrite length_insert]. Qed.

Lemma wf_init_state : wf init_state.
Proof. split; reflexivity. Qed.

Lemma wrap32_small z : u32 z -> wrap32 z = z.
Proof. unfold u32, wrap32. intros H. by apply Z.mod_small. Qed.

Lemma truthy_true z : truthy z = true <-> z <> 0.
Proof. unfold truthy. destruct (Z.eqb_spec z 0); simpl; split; intros; congruence. Qed.

Lemma truthy_false z : truthy z = false <-> z = 0.
Proof. unfold truthy. destruct (Z.eqb_spec z 0); simpl; split; intros; congruence. Qed.

(** ** The non-blocking delay *)

Lemma wrap32_elapsed ts k :
  0 <= k < 2 ^ 32 -> wrap32 (wrap32 (ts + k) - ts) = k.
Proof.
  intros Hk. unfold wrap32. rewrite Zminus_mod_idemp_l.
  replace (ts + k - ts) with k by lia. by apply Z.mod_small.
Qed.

(** C6: [tmDelay_ms] answers true and stores the clock in the timestamp
    exactly when the difference clock - timestamp, taken modulo 2^32, is at
    least the delay; otherwise it answers false and the timestamp keeps its
    value.  When the clock is [k < 2^32] ticks past the stored timestamp,
    also across the wrap of the counter, the answer is true exactly when
    [delay <= k]. *)
Theorem tmDelay_ms_wrap_safe (s : State) (ts D : Z) :
  let r := tmDelay_ms ts D s in
  (fst r = true <-> D <= wrap32 (millis s - ts)) /\
  (fst r = true -> snd r = millis s) /\
  (fst r = false -> snd r = ts) /\
  (forall k, 0 <= k < 2 ^ 32 -> millis s = wrap32 (ts + k) ->
     (fst r = true <-> D <= k)).
Proof.
  unfold tmDelay_ms. simpl.
  destruct (Z.leb_spec D (wrap32 (millis s - ts))) as [Hle|Hgt]; simpl.
  - split; [done|]. split; [done|]. split; [done|].
    intros k Hk Hnow. rewrite Hnow, wrap32_elapsed in Hle by done. done.
  - split; [split; [done | lia]|]. split; [done|]. split; [done|].
    intros k Hk Hnow. rewrite Hnow, wrap32_elapsed in Hgt by done.
    split; [done | lia].
Qed.

(** The clock has wrapped from [2^32 - 3] to [2]: five ticks have passed. *)
Lemma tmDelay_ms_wrap_safe_witness :
  fst (tmDelay_ms (2 ^ 32 - 3) 5 (set_millis 2 init_state)) = true /\
  fst (tmDelay_ms (2 ^ 32 - 3) 6 (set_millis 2 init_state)) = false.
Proof.
  split.
  - apply (proj2 (proj2 (proj2
      (tmDelay_ms_wrap_safe (set_millis 2 init_state) (2 ^ 32 - 3) 5))) 5);
      [lia | reflexivity | lia].
  - destruct (fst (tmDelay_ms (2 ^ 32 - 3) 6 (set_millis 2 init_state))) eqn:E;
      [|reflexivity].
    apply (proj2 (proj2 (proj2
      (tmDelay_ms_wrap_safe (set_millis 2 init_state) (2 ^ 32 - 3) 6))) 5) in E;
      [lia | lia | reflexivity].
Defined.

(** ** The task table *)

Lemma taskFunc_eqb_first (f : fptr) (s : State) (i : nat) :
  first_index (fun j => taskFunc (task_at j s) =? f) 0 MAX_TASKS = Some i <->
  (i < MAX_TASKS)%nat /\ taskFunc (task_at i s) = f /\
  (forall j, (j < i)%nat -> taskFunc (task_at j s) <> f).
Proof.
  rewrite first_index_Some. split.
  - intros (Hr & Hi & Hm). repeat split; [lia | by apply Z.eqb_eq |].
    intros j Hj. apply Z.eqb_neq, Hm. lia.
  - intros (Hr & Hi & Hm). repeat split; [lia | lia | by apply Z.eqb_eq |].
    intros j Hj. apply Z.eqb_neq, Hm. lia.
Qed.

Lemma taskFunc_eqb_none (f : fptr) (s : State) :
  first_index (fun j => taskFunc (task_at j s) =? f) 0 MAX_TASKS = None <->
  (forall j, (j < MAX_TASKS)%nat -> taskFunc (task_at j s) <> f).
Proof.
  rewrite first_index_None. split.
  - intros H j Hj. apply Z.eqb_neq, H. lia.
  - intros H j Hj. apply Z.eqb_neq, H. lia.
Qed.

Lemma tmAddTask_found f p s i :
  first_index (fun j => taskFunc (task_at j s) =? 0) 0 MAX_TASKS = Some i ->
  tmAddTask f p s = (Z.of_nat i, set_task i (mkTask f p p 0) s).
Proof. intros E. unfold tmAddTask. by rewrite E. Qed.

Lemma tmAddTask_full f p s :
  first_index (fun j => taskFunc (task_at j s) =? 0) 0 MAX_TASKS = None ->
  tmAddTask f p s = (-1, s).
Proof. intros E. unfold tmAddTask. by rewrite E. Qed.

(** C10: with a free slot in the table, [tmAddTask] called with a null
    function pointer returns the index of the first free slot, not -1, and
    that slot is as free afterwards as it was: no slot changes its
    [taskFunc], and the next [tmAddTask] is handed the same index. *)
Theorem tmAddTask_null_consumes_nothing (s : State) (p : Z) :
  wf s ->
  (exists j, (j < MAX_TASKS)%nat /\ taskFunc (task_at j s) = NULL) ->
  exists i,
    ((i < MAX_TASKS)%nat /\ taskFunc (task_at i s) = NULL /\
     (forall j, (j < i)%nat -> taskFunc (task_at j s) <> NULL)) /\
    fst (tmAddTask NULL p s) = Z.of_nat i /\
    fst (tmAddTask NULL p s) <> -1 /\
    taskFunc (task_at i (snd (tmAddTask NULL p s))) = NULL /\
    (forall j, taskFunc (task_at j (snd (tmAddTask NULL p s))) =
               taskFunc (task_at j s)) /\
    (forall g q, fst (tmAddTask g q (snd (tmAddTask NULL p s))) = Z.of_nat i).
Proof.
  intros [Hlen _] (j0 & Hj0 & Hfree).
  destruct (first_index (fun j => taskFunc (task_at j s) =? 0) 0 MAX_TASKS)
    as [i|] eqn:E.
  - pose proof E as (Hi & Hf & Hm)%taskFunc_eqb_first.
    exists i. rewrite !(tmAddTask_found NULL p s i E). cbn [fst snd].
    assert (Hsame : forall j,
      taskFunc (task_at j (set_task i (mkTask NULL p p 0) s)) =
      taskFunc (task_at j s)).
    { intros j. destruct (Nat.eq_dec i j) as [<-|Hne].
      - rewrite task_at_set_task_eq by lia. by rewrite Hf.
      - by rewrite task_at_set_task_ne. }
    repeat split; try done; try lia.
    + by rewrite Hsame.
    + intros g q. erewrite tmAddTask_found; [done|].
      rewrite <- E. apply first_index_ext. intros j _. by rewrite Hsame.
  - exfalso. pose proof (proj1 (taskFunc_eqb_none 0 s) E) as Hnone.
    by apply (Hnone j0).
Qed.

Lemma tmAddTask_null_consumes_nothing_witness :
  fst (tmAddTask NULL 5 init_state) = 0 /\
  fst (tmAddTask 7 5 (snd (tmAddTask NULL 5 init_state))) = 0.
Proof.
  destruct (tmAddTask_null_consumes_nothing init_state 5 wf_init_state)
    as (i & (_ & _ & Hm) & Hr & _ & _ & _ & Hnext).
  - exists 0%nat. split; [unfold MAX_TASKS; lia | reflexivity].
  - assert (i = 0%nat) as ->.
    { destruct i as [|i]; [reflexivity|].
      exfalso. apply (Hm 0%nat); [lia | reflexivity]. }
    split; [exact Hr | exact (Hnext 7 5)].
Defined.

(** C5, as the code has it: [tmUpdateTask] returns 0 exactly when some slot
    of the table has [taskFunc] equal to the argument, whether the slot is
    occupied (a non-null argument) or free (a null argument); it then
    writes [period_ms] and [delay_ms] and clears [isReady] in the first
    such slot and nowhere else.  When no slot matches it returns -1 and the
    state is unchanged. *)
Theorem tmUpdateTask_first_match (s : State) (f : fptr) (p : Z) :
  wf s ->
  (fst (tmUpdateTask f p s) = 0 <->
   exists i, (i < MAX_TASKS)%nat /\ taskFunc (task_at i s) = f) /\
  (forall i, (i < MAX_TASKS)%nat -> taskFunc (task_at i s) = f ->
     (forall j, (j < i)%nat -> taskFunc (task_at j s) <> f) ->
     tmUpdateTask f p s = (0, set_task i (mkTask f p p 0) s)) /\
  ((forall i, (i < MAX_TASKS)%nat -> taskFunc (task_at i s) <> f) ->
   tmUpdateTask f p s = (-1, s)).
Proof.
  intros [Hlen _]. unfold tmUpdateTask.
  destruct (first_index (fun j => taskFunc (task_at j s) =? f) 0 MAX_TASKS)
    as [i|] eqn:E.
  - pose proof E as (Hi & Hf & Hm)%taskFunc_eqb_first. simpl.
    split; [split; [eauto | done]|]. split.
    + intros k Hk Hkf Hkm.
      assert (k = i) as ->.
      { destruct (Nat.lt_trichotomy k i) as [Hlt|[->|Hgt]]; [|done|].
        - by destruct (Hm k Hlt).
        - by destruct (Hkm i Hgt). }
      by rewrite Hf.
    + intros Hnone. by destruct (Hnone i Hi).
  - pose proof (proj1 (taskFunc_eqb_none f s) E) as Hnone. simpl.
    split; [split; [discriminate|]|].
    + intros (i & Hi & Hf). by destruct (Hnone i Hi).
    + split; [|done]. intros i Hi Hf. by destruct (Hnone i Hi).
Qed.

Lemma tmUpdateTask_first_match_witness :
  tmUpdateTask 7 3 (snd (tmAddTask 7 5 (snd (tmAddTask 9 2 init_state)))) =
  (0, set_task 1 (mkTask 7 3 3 0)
        (snd (tmAddTask 7 5 (snd (tmAddTask 9 2 init_state))))).
Proof.
  apply (tmUpdateTask_first_match
           (snd (tmAddTask 7 5 (snd (tmAddTask 9 2 init_state)))) 7 3).
  - split; reflexivity.
  - unfold MAX_TASKS; lia.
  - reflexivity.
  - intros j Hj. assert (j = 0%nat) as -> by lia. vm_compute. discriminate.
Defined.

(** C5 as the claim words it fails for a null argument: on the empty table
    no occupied slot holds the argument, and yet the call returns 0 and
    writes into slot 0. *)
Lemma tmUpdateTask_null_counterexample :
  ~ ((fst (tmUpdateTask NULL 5 init_state) = 0 <->
      exists i, (i < MAX_TASKS)%nat /\
        truthy (taskFunc (task_at i init_state)) = true /\
        taskFunc (task_at i init_state) = NULL) /\
     ((~ exists i, (i < MAX_TASKS)%nat /\
        truthy (taskFunc (task_at i init_state)) = true /\
        taskFunc (task_at i init_state) = NULL) ->
      tmUpdateTask NULL 5 init_state = (-1, init_state))).
Proof.
  intros [[H _] _]. destruct H as (i & _ & Hocc & Hnull); [reflexivity|].
  rewrite Hnull in Hocc. discriminate.
Qed.

Lemma filled_to_first_free k s :
  (k < MAX_TASKS)%nat -> filled_to k s ->
  first_index (fun j => taskFunc (task_at j s) =? 0) 0 MAX_TASKS = Some k.
Proof.
  intros Hk Hfill. apply (proj2 (taskFunc_eqb_first 0 s k)).
  split; [done|]. split.
  - by apply Hfill.
  - intros j Hj Hfree. apply Hfill in Hfree; lia.
Qed.

Lemma filled_to_full s :
  filled_to MAX_TASKS s ->
  first_index (fun j => taskFunc (task_at j s) =? 0) 0 MAX_TASKS = None.
Proof.
  intros Hfill. apply (proj2 (taskFunc_eqb_none 0 s)).
  intros j Hj Hfree. apply Hfill in Hfree; lia.
Qed.

Lemma filled_to_add k f p s :
  wf s -> (k < MAX_TASKS)%nat -> f <> NULL -> filled_to k s ->
  filled_to (S k) (set_task k (mkTask f p p 0) s).
Proof.
  intros [Hlen _] Hk Hf Hfill j Hj.
  destruct (Nat.eq_dec k j) as [<-|Hne].
  - rewrite task_at_set_task_eq by lia. simpl. split; [done | lia].
  - rewrite task_at_set_task_ne by done. rewrite (Hfill j Hj). lia.
Qed.

Lemma add_tasks_fill (l : list (fptr * Z)) :
  forall (k : nat) (s : State),
    wf s -> filled_to k s -> (k + length l <= MAX_TASKS)%nat ->
    Forall (fun fp => fst fp <> NULL) l ->
    fst (add_tasks l s) = map Z.of_nat (seq k (length l)) /\
    wf (snd (add_tasks l s)) /\
    filled_to (k + length l) (snd (add_tasks l s)).
Proof.
  induction l as [|[f p] l IH]; intros k s Hwf Hfill Hk Hnn; simpl.
  - rewrite Nat.add_0_r. done.
  - simpl in Hk. apply Forall_cons in Hnn as [Hf Hnn]. simpl in Hf.
    rewrite (tmAddTask_found f p s k) by (apply filled_to_first_free; [lia|done]).
    destruct (IH (S k) (set_task k (mkTask f p p 0) s)) as (Hr & Hw & Hfl).
    + by apply wf_set_task.
    + apply filled_to_add; [done | lia | done | done].
    + lia.
    + done.
    + destruct (add_tasks l (set_task k (mkTask f p p 0) s)) as [ks s2].
      simpl in *. rewrite Hr. rewrite <- Nat.add_succ_comm. done.
Qed.

Lemma filled_to_init : filled_to 0 init_state.
Proof.
  intros j Hj. split; [lia|]. intros _.
  do 10 (destruct j as [|j]; [reflexivity|]).
  unfold MAX_TASKS in Hj. lia.
Qed.

Lemma filled_to_empty (s : State) :
  (forall j, (j < MAX_TASKS)%nat -> taskFunc (task_at j s) = NULL) ->
  filled_to 0 s.
Proof. intros Hfree j Hj. split; [lia|]. intros _. by apply Hfree. Qed.

(** C7: from an empty table (every slot free, whatever its other fields
    hold: the zero-initialised table, or one emptied by deletes),
    [MAX_TASKS] successive [tmAddTask] calls with non-null function
    pointers return 0, 1, ..., [MAX_TASKS - 1] in this order, and any call
    after them returns -1 and leaves the state as it is.  (That the
    pointers differ from each other is not needed.) *)
Theorem tmAddTask_capacity (s : State) (l : list (fptr * Z)) :
  wf s ->
  (forall j, (j < MAX_TASKS)%nat -> taskFunc (task_at j s) = NULL) ->
  length l = MAX_TASKS ->
  Forall (fun fp => fst fp <> NULL) l ->
  fst (add_tasks l s) = [0; 1; 2; 3; 4; 5; 6; 7; 8; 9] /\
  forall f p,
    tmAddTask f p (snd (add_tasks l s)) = (-1, snd (add_tasks l s)).
Proof.
  intros Hwf Hfree Hlen Hnn.
  destruct (add_tasks_fill l 0 s Hwf (filled_to_empty s Hfree))
    as (Hr & Hw & Hfl); [lia | done |].
  rewrite Hlen in Hr, Hfl. split; [exact Hr|].
  intros f p. apply tmAddTask_full, filled_to_full. exact Hfl.
Qed.

Lemma emptied_state_free :
  forall j, (j < MAX_TASKS)%nat -> taskFunc (task_at j emptied_state) = NULL.
Proof.
  intros j Hj. do 10 (destruct j as [|j]; [reflexivity|]).
  unfold MAX_TASKS in Hj. lia.
Qed.

(** The table emptied by a delete is not the initial one, and takes ten
    tasks all the same. *)
Lemma tmAddTask_capacity_witness :
  emptied_state <> init_state /\
  fst (add_tasks (map (fun f => (f, 100 * f)) [11; 12; 13; 14; 15; 16; 17; 18; 19; 20])
         emptied_state) = [0; 1; 2; 3; 4; 5; 6; 7; 8; 9] /\
  fst (tmAddTask 21 5
         (snd (add_tasks
                 (map (fun f => (f, 100 * f)) [11; 12; 13; 14; 15; 16; 17; 18; 19; 20])
                 emptied_state))) = -1.
Proof.
  destruct (tmAddTask_capacity emptied_state
              (map (fun f => (f, 100 * f)) [11; 12; 13; 14; 15; 16; 17; 18; 19; 20]))
    as [Hr Hfull].
  - split; reflexivity.
  - exact emptied_state_free.
  - reflexivity.
  - repeat constructor; simpl; discriminate.
  - split; [vm_compute; discriminate|]. split; [exact Hr|]. by rewrite Hfull.
Defined.

(** ** The passes over the tables, one slot at a time *)

Lemma task_at_lookup i s t : tasks s !! i = Some t -> task_at i s = t.
Proof. intros H. unfold task_at. by apply list_lookup_total_correct. Qed.

Lemma timer_at_lookup i s t : timers s !! i = Some t -> timer_at i s = t.
Proof. intros H. unfold timer_at. by apply list_lookup_total_correct. Qed.

Lemma occurrences_app e l1 l2 :
  occurrences e (l1 ++ l2) = (occurrences e l1 + occurrences e l2)%nat.
Proof. induction l1 as [|x l1 IH]; simpl; [done|]. rewrite IH. lia. Qed.

Lemma event_eqb_eq a b : event_eqb a b = true <-> a = b.
Proof.
  destruct a as [f|f|], b as [g|g|]; simpl; try (split; congruence).
  - rewrite Z.eqb_eq. split; congruence.
  - rewrite Z.eqb_eq. split; congruence.
Qed.

Lemma occurrences_snoc_eq e l : occurrences e (l ++ [e]) = S (occurrences e l).
Proof.
  rewrite occurrences_app. simpl.
  rewrite (proj2 (event_eqb_eq e e) eq_refl). lia.
Qed.

Lemma occurrences_snoc_ne e x l :
  e <> x -> occurrences e (l ++ [x]) = occurrences e l.
Proof.
  intros Hne. rewrite occurrences_app. simpl.
  destruct (event_eqb e x) eqn:E; [|lia].
  by apply event_eqb_eq in E.
Qed.

Lemma tick_tasks_frame s :
  timers (tick_tasks s) = timers s /\
  millis (tick_tasks s) = millis s /\
  taskExecuted (tick_tasks s) = taskExecuted s /\
  forall k, tasks (tick_tasks s) !! k =
            if (k <? MAX_TASKS)%nat then tick_task <$> tasks s !! k
            else tasks s !! k.
Proof.
  unfold tick_tasks.
  apply (for_loop_inv (fun j s' =>
    timers s' = timers s /\ millis s' = millis s /\
    taskExecuted s' = taskExecuted s /\
    forall k, tasks s' !! k =
              if (k <? j)%nat then tick_task <$> tasks s !! k
              else tasks s !! k)).
  - by repeat split.
  - intros j x _ (Ht & Hm & He & Hk). repeat split; try done.
    intros k. simpl. destruct (Nat.eq_dec j k) as [<-|Hne].
    + destruct (Nat.ltb_spec j (S j)); [|lia].
      specialize (Hk j). destruct (Nat.ltb_spec j j); [lia|].
      destruct (tasks s !! j) as [t|] eqn:E.
      * rewrite list_lookup_insert_eq by (by eapply lookup_lt_Some).
        by rewrite (task_at_lookup _ _ _ Hk).
      * simpl. apply lookup_ge_None. rewrite length_insert.
        by apply lookup_ge_None.
    + rewrite list_lookup_insert_ne by done. rewrite Hk.
      destruct (Nat.ltb_spec k j), (Nat.ltb_spec k (S j)); try done; lia.
Qed.

(** *** Projections of updated records

    Stated as equations, to be used by rewriting. *)

Lemma st_mk (s : State) (l : list event) : st (mkWorld s l) = s.
Proof. reflexivity. Qed.

Lemma log_mk (s : State) (l : list event) : log (mkWorld s l) = l.
Proof. reflexivity. Qed.

Lemma tasks_set_task i t s : tasks (set_task i t s) = <[i := t]> (tasks s).
Proof. reflexivity. Qed.

Lemma timers_set_task i t s : timers (set_task i t s) = timers s.
Proof. reflexivity. Qed.

Lemma millis_set_task i t s : millis (set_task i t s) = millis s.
Proof. reflexivity. Qed.

Lemma taskExecuted_set_task i t s :
  taskExecuted (set_task i t s) = taskExecuted s.
Proof. reflexivity. Qed.

Lemma tasks_set_timer i t s : tasks (set_timer i t s) = tasks s.
Proof. reflexivity. Qed.

Lemma timers_set_timer i t s : timers (set_timer i t s) = <[i := t]> (timers s).
Proof. reflexivity. Qed.

Lemma millis_set_timer i t s : millis (set_timer i t s) = millis s.
Proof. reflexivity. Qed.

Lemma taskExecuted_set_timer i t s :
  taskExecuted (set_timer i t s) = taskExecuted s.
Proof. reflexivity. Qed.

Lemma tasks_set_millis m s : tasks (set_millis m s) = tasks s.
Proof. reflexivity. Qed.

Lemma timers_set_millis m s : timers (set_millis m s) = timers s.
Proof. reflexivity. Qed.

Lemma millis_set_millis m s : millis (set_millis m s) = m.
Proof. reflexivity. Qed.

Lemma taskExecuted_set_millis m s :
  taskExecuted (set_millis m s) = taskExecuted s.
Proof. reflexivity. Qed.

Lemma tasks_set_taskExecuted b s : tasks (set_taskExecuted b s) = tasks s.
Proof. reflexivity. Qed.

Lemma timers_set_taskExecuted b s : timers (set_taskExecuted b s) = timers s.
Proof. reflexivity. Qed.

Lemma millis_set_taskExecuted b s : millis (set_taskExecuted b s) = millis s.
Proof. reflexivity. Qed.

Lemma taskExecuted_set_taskExecuted b s :
  taskExecuted (set_taskExecuted b s) = b.
Proof. reflexivity. Qed.

Lemma st_call e h w : st (call e h w) = h (st w).
Proof. reflexivity. Qed.

Lemma log_call e h w : log (call e h w) = log w ++ [e].
Proof. reflexivity. Qed.

Lemma timer_at_set_task i t j s : timer_at j (set_task i t s) = timer_at j s.
Proof. reflexivity. Qed.

Lemma timer_at_set_millis m j s : timer_at j (set_millis m s) = timer_at j s.
Proof. reflexivity. Qed.

Lemma timer_at_set_taskExecuted b j s :
  timer_at j (set_taskExecuted b s) = timer_at j s.
Proof. reflexivity. Qed.

Lemma task_at_set_timer i t j s : task_at j (set_timer i t s) = task_at j s.
Proof. reflexivity. Qed.

Lemma task_at_set_millis m j s : task_at j (set_millis m s) = task_at j s.
Proof. reflexivity. Qed.

Lemma task_at_set_taskExecuted b j s :
  task_at j (set_taskExecuted b s) = task_at j s.
Proof. reflexivity. Qed.

Create HintDb world discriminated.


Section Passes.

Variable run_cb : fptr -> State -> State.
Variable sIdleTask : State -> State.

(** A property of the state that callbacks and timer writes respect
    survives the timer pass. *)
Lemma tmTimerProcess_preserves (Q : State -> Prop) (w : World) :
  (forall g s, Q s -> Q (run_cb g s)) ->
  (forall k t s, Q s -> Q (set_timer k t s)) ->
  Q (st w) -> Q (st (tmTimerProcess run_cb w)).
Proof.
  intros Hcb Hset H0. unfold tmTimerProcess.
  apply (for_loop_inv (fun _ x => Q (st x))); [done|].
  intros j x _ Hx. unfold timer_step.
  destruct (expired _ _); [|done]. cbn [st].
  destruct (truthy _); cbn [call st]; auto.
Qed.

(** The same for the pass of [tmUpdate]. *)
Lemma tmUpdate_preserves (Q : State -> Prop) (w : World) :
  (forall g s, Q s -> Q (run_cb g s)) ->
  (forall s, Q s -> Q (sIdleTask s)) ->
  (forall k t s, Q s -> Q (set_task k t s)) ->
  (forall b s, Q s -> Q (set_taskExecuted b s)) ->
  Q (st w) -> Q (st (tmUpdate run_cb sIdleTask w)).
Proof.
  intros Hcb Hidle Hset Hex H0. unfold tmUpdate.
  assert (Q (st (for_loop (update_step run_cb) 0 MAX_TASKS w))) as Hloop.
  { apply (for_loop_inv (fun _ x => Q (st x))); [done|].
    intros j x _ Hx. unfold update_step.
    destruct (_ && _); [|done]. cbn [call st]. auto. }
  destruct (truthy _); [done|]. cbn [call st]. auto.
Qed.

(** The timer pass logs timer calls only. *)
Lemma tmTimerProcess_log (e : event) (w : World) :
  (forall g, e <> FireTimer g) ->
  occurrences e (log (tmTimerProcess run_cb w)) = occurrences e (log w).
Proof.
  intros He. unfold tmTimerProcess.
  apply (for_loop_inv (fun _ x => occurrences e (log x) = occurrences e (log w)));
    [done|].
  intros j x _ Hx. unfold timer_step.
  destruct (expired _ _); [|done]. cbn [st log].
  destruct (truthy _); cbn [call log]; [|done].
  by rewrite occurrences_snoc_ne.
Qed.

(** [tmTick], with its three steps in the order of the source. *)
Lemma tmTick_eq (w : World) :
  tmTick run_cb w =
  mkWorld
    (set_millis
       (wrap32 (millis (st (tmTimerProcess run_cb
                              (mkWorld (tick_tasks (st w)) (log w)))) + 1))
       (st (tmTimerProcess run_cb (mkWorld (tick_tasks (st w)) (log w)))))
    (log (tmTimerProcess run_cb (mkWorld (tick_tasks (st w)) (log w)))).
Proof. reflexivity. Qed.

Lemma tmTick_log (e : event) (w : World) :
  (forall g, e <> FireTimer g) ->
  occurrences e (log (tmTick run_cb w)) = occurrences e (log w).
Proof.
  intros He. rewrite tmTick_eq, log_mk, tmTimerProcess_log by done.
  by rewrite log_mk.
Qed.

(** [tmUpdate] logs task calls and the idle call only. *)
Lemma tmUpdate_log (e : event) (w : World) :
  (forall g, e <> RunTask g) -> e <> RunIdle ->
  occurrences e (log (tmUpdate run_cb sIdleTask w)) = occurrences e (log w).
Proof.
  intros He Hi. unfold tmUpdate.
  assert (occurrences e (log (for_loop (update_step run_cb) 0 MAX_TASKS w)) =
          occurrences e (log w)) as Hloop.
  { apply (for_loop_inv (fun _ x => occurrences e (log x) = occurrences e (log w)));
      [done|].
    intros j x _ Hx. unfold update_step.
    destruct (_ && _); [|done]. cbn [call st log].
    by rewrite occurrences_snoc_ne. }
  destruct (truthy _); [done|]. cbn [call log].
  by rewrite occurrences_snoc_ne.
Qed.


Lemma tmUpdate_eq (w : World) :
  tmUpdate run_cb sIdleTask w =
  if truthy (taskExecuted (st (for_loop (update_step run_cb) 0 MAX_TASKS w)))
  then for_loop (update_step run_cb) 0 MAX_TASKS w
  else call RunIdle sIdleTask (for_loop (update_step run_cb) 0 MAX_TASKS w).
Proof. reflexivity. Qed.

Lemma run_nil (w : World) : run run_cb sIdleTask w [] = w.
Proof. reflexivity. Qed.

Lemma run_Tick (ops : list op) (w : World) :
  run run_cb sIdleTask w (Tick :: ops) =
  run run_cb sIdleTask (tmTick run_cb w) ops.
Proof. cbn [run]. reflexivity. Qed.

Lemma run_Update (ops : list op) (w : World) :
  run run_cb sIdleTask w (Update :: ops) =
  run run_cb sIdleTask (tmUpdate run_cb sIdleTask w) ops.
Proof. cbn [run]. reflexivity. Qed.

Lemma update_step_log_mono (e : event) (j : nat) (x : World) :
  (occurrences e (log x) <= occurrences e (log (update_step run_cb j x)))%nat.
Proof.
  unfold update_step. destruct (_ && _); [|done]. cbn [call st log].
  rewrite occurrences_app. lia.
Qed.

(** *** One task slot *)

Lemma tmTick_task (i : nat) (t : Task_s) (w : World) :
  (forall g, keeps_task i (run_cb g)) ->
  (i < MAX_TASKS)%nat ->
  tasks (st w) !! i = Some t ->
  tasks (st (tmTick run_cb w)) !! i = Some (tick_task t).
Proof.
  intros Hcb Hi Ht. rewrite tmTick_eq, st_mk, tasks_set_millis.
  apply (tmTimerProcess_preserves (fun s => tasks s !! i = Some (tick_task t))).
  - intros g s Hs. by rewrite Hcb.
  - intros k t' s Hs. by rewrite tasks_set_timer.
  - rewrite st_mk. destruct (tick_tasks_frame (st w)) as (_ & _ & _ & Hk).
    rewrite Hk, Ht. by destruct (Nat.ltb_spec i MAX_TASKS); [|lia].
Qed.

(** One iteration of the loop of [tmUpdate], seen from slot [i]. *)
Lemma update_step_task (i j : nat) (t : Task_s) (x : World) :
  (forall g, keeps_task i (run_cb g)) ->
  tasks (st x) !! i = Some t ->
  tasks (st (update_step run_cb j x)) !! i =
    Some (if (j =? i)%nat then consume_task t else t).
Proof.
  intros Hcb Ht. unfold update_step.
  destruct (Nat.eqb_spec j i) as [->|Hne].
  - rewrite (task_at_lookup _ _ _ Ht). unfold consume_task.
    destruct (_ && _); [|done].
    cbn [call st]. simpl tasks. rewrite Hcb. simpl.
    by rewrite list_lookup_insert_eq by (by eapply lookup_lt_Some).
  - destruct (_ && _); [|done].
    cbn [call st]. simpl tasks. rewrite Hcb. simpl.
    by rewrite list_lookup_insert_ne.
Qed.

Lemma update_step_log_hit (i : nat) (t : Task_s) (x : World) :
  tasks (st x) !! i = Some t ->
  truthy (taskFunc t) && truthy (isReady t) = true ->
  occurrences (RunTask (taskFunc t)) (log (update_step run_cb i x)) =
    S (occurrences (RunTask (taskFunc t)) (log x)).
Proof.
  intros Ht Hready. unfold update_step.
  rewrite (task_at_lookup _ _ _ Ht), Hready. cbn [call st log].
  rewrite task_at_set_task_eq by (by eapply lookup_lt_Some).
  cbn [taskFunc]. by rewrite occurrences_snoc_eq.
Qed.

Lemma tmUpdate_task (i : nat) (t : Task_s) (w : World) :
  (forall g, keeps_task i (run_cb g)) ->
  keeps_task i sIdleTask ->
  (i < MAX_TASKS)%nat ->
  tasks (st w) !! i = Some t ->
  tasks (st (tmUpdate run_cb sIdleTask w)) !! i = Some (consume_task t) /\
  (truthy (taskFunc t) && truthy (isReady t) = true ->
   (occurrences (RunTask (taskFunc t)) (log w) <
    occurrences (RunTask (taskFunc t)) (log (tmUpdate run_cb sIdleTask w)))%nat).
Proof.
  intros Hcb Hidle Hi Ht.
  pose proof (for_loop_inv0 (fun j x =>
      tasks (st x) !! i = Some (if (i <? j)%nat then consume_task t else t) /\
      (occurrences (RunTask (taskFunc t)) (log w) <=
       occurrences (RunTask (taskFunc t)) (log x))%nat /\
      ((i <? j)%nat = true ->
       truthy (taskFunc t) && truthy (isReady t) = true ->
       (occurrences (RunTask (taskFunc t)) (log w) <
        occurrences (RunTask (taskFunc t)) (log x))%nat))
      (update_step run_cb) MAX_TASKS w) as Hinv.
  cbv beta in Hinv.
  destruct Hinv as (Hslot & _ & Hlog).
  - split; [done|]. split; [lia | discriminate].
  - intros j x Hj (Hs & Hc & Hr).
    pose proof (update_step_log_mono (RunTask (taskFunc t)) j x) as Hmono.
    destruct (Nat.lt_trichotomy i j) as [Hlt|[->|Hgt]].
    + assert ((i <? j)%nat = true) as Hij by (apply Nat.ltb_lt; lia).
      assert ((i <? S j)%nat = true) as HiSj by (apply Nat.ltb_lt; lia).
      rewrite Hij in Hs, Hr. rewrite HiSj.
      rewrite (update_step_task i j _ x Hcb Hs).
      assert ((j =? i)%nat = false) as -> by (apply Nat.eqb_neq; lia).
      split; [done|]. split; [lia|]. intros _ Hready.
      specialize (Hr eq_refl Hready). lia.
    + assert ((j <? j)%nat = false) as Hjj by (apply Nat.ltb_ge; lia).
      assert ((j <? S j)%nat = true) as HjSj by (apply Nat.ltb_lt; lia).
      rewrite Hjj in Hs. rewrite HjSj.
      rewrite (update_step_task j j _ x Hcb Hs), Nat.eqb_refl.
      split; [done|]. split; [lia|]. intros _ Hready.
      rewrite (update_step_log_hit j t x Hs Hready). lia.
    + assert ((i <? j)%nat = false) as Hij by (apply Nat.ltb_ge; lia).
      assert ((i <? S j)%nat = false) as HiSj by (apply Nat.ltb_ge; lia).
      rewrite Hij in Hs. rewrite HiSj.
      rewrite (update_step_task i j _ x Hcb Hs).
      assert ((j =? i)%nat = false) as -> by (apply Nat.eqb_neq; lia).
      split; [done|]. split; [lia | discriminate].
  - assert ((i <? MAX_TASKS)%nat = true) as Hlt by (by apply Nat.ltb_lt).
    rewrite Hlt in Hslot, Hlog. specialize (Hlog eq_refl).
    rewrite tmUpdate_eq. destruct (truthy (taskExecuted _)).
    + done.
    + rewrite st_call, log_call, Hidle. split; [done|].
      intros Hready. specialize (Hlog Hready). rewrite occurrences_app. lia.
Qed.

End Passes.

Lemma tmTimerStartOnce_tasks d g s : tasks (snd (tmTimerStartOnce d g s)) = tasks s.
Proof.
  unfold tmTimerStartOnce.
  destruct (first_index _ 0 MAX_TIMERS); [done|].
  by destruct (first_index _ 0 MAX_TIMERS).
Qed.

Lemma tmUpdateTask_timers f p s :
  timers (snd (tmUpdateTask f p s)) = timers s /\
  millis (snd (tmUpdateTask f p s)) = millis s.
Proof. unfold tmUpdateTask. by destruct (first_index _ 0 MAX_TASKS). Qed.

Lemma arming_cb_keeps_task i g : keeps_task i (arming_cb g).
Proof.
  intros s. unfold arming_cb. destruct (g =? vTaskLedFlash); [|done].
  by rewrite tmTimerStartOnce_tasks.
Qed.

Lemma tmAddTask_slot f p s0 i s1 :
  wf s0 -> tmAddTask f p s0 = (Z.of_nat i, s1) ->
  (i < MAX_TASKS)%nat /\ tasks s1 !! i = Some (mkTask f p p 0).
Proof.
  intros [Hlen _]. unfold tmAddTask.
  destruct (first_index _ 0 MAX_TASKS) as [k|] eqn:E; [|intros [=]; lia].
  intros [= Hk <-]. apply Nat2Z.inj in Hk as ->.
  apply first_index_Some in E as (Hr & _). split; [lia|].
  simpl. apply list_lookup_insert_eq. lia.
Qed.

(** ** Periodic tasks *)

Section PeriodicTask.

Variable run_cb : fptr -> State -> State.
Variable sIdleTask : State -> State.
Variable i : nat.

Hypothesis cb_keeps : forall g, keeps_task i (run_cb g).
Hypothesis idle_keeps : keeps_task i sIdleTask.

(** While the countdown has not reached its last millisecond the slot only
    counts down, and calls of [tmUpdate] in between do not disturb it. *)
Lemma run_task_countdown (ops : list op) :
  forall (w : World) (f : fptr) (N d r : Z),
    (i < MAX_TASKS)%nat -> f <> NULL ->
    Z.of_nat (ticks ops) < d -> d <= N < 2 ^ 32 ->
    tasks (st w) !! i = Some (mkTask f N d r) ->
    exists r',
      tasks (st (run run_cb sIdleTask w ops)) !! i =
        Some (mkTask f N (d - Z.of_nat (ticks ops)) r') /\
      (r = 0 -> r' = 0).
Proof.
  induction ops as [|o ops IH]; intros w f N d r Hi Hf Ht Hd Hs.
  - exists r. rewrite run_nil. cbn [ticks]. rewrite Z.sub_0_r. done.
  - destruct o; cbn [ticks] in *.
    + rewrite run_Tick.
      assert (tick_task (mkTask f N d r) = mkTask f N (d - 1) r) as Htick.
      { unfold tick_task. cbn [taskFunc delay_ms period_ms isReady].
        rewrite (proj2 (truthy_true f)) by done.
        destruct (Z.ltb_spec 0 d); [|lia].
        rewrite wrap32_small by (unfold u32; lia).
        destruct (Z.eqb_spec (d - 1) 0); [lia | done]. }
      pose proof (tmTick_task run_cb i _ w cb_keeps Hi Hs) as Hs'.
      rewrite Htick in Hs'.
      destruct (IH _ f N (d - 1) r Hi Hf ltac:(lia) ltac:(lia) Hs')
        as (r' & Hr' & Hz).
      exists r'. split; [|done].
      rewrite Hr'. do 2 f_equal. lia.
    + rewrite run_Update.
      destruct (tmUpdate_task run_cb sIdleTask i _ w cb_keeps idle_keeps Hi Hs)
        as [Hs' _].
      assert (exists r1, consume_task (mkTask f N d r) = mkTask f N d r1 /\
                         (r = 0 -> r1 = 0)) as (r1 & Hc & Hz1).
      { unfold consume_task. cbn [taskFunc delay_ms period_ms isReady].
        destruct (_ && _); eauto. }
      rewrite Hc in Hs'.
      destruct (IH _ f N d r1 Hi Hf Ht Hd Hs') as (r' & Hr' & Hz).
      exists r'. split; [done | auto].
Qed.

(** The tick that ends the countdown flags the task and reloads the
    counter. *)
Lemma tmTick_task_fires (w : World) (f : fptr) (N r : Z) :
  (i < MAX_TASKS)%nat -> f <> NULL ->
  tasks (st w) !! i = Some (mkTask f N 1 r) ->
  tasks (st (tmTick run_cb w)) !! i = Some (mkTask f N N 1).
Proof.
  intros Hi Hf Hs. rewrite (tmTick_task run_cb i _ w cb_keeps Hi Hs).
  unfold tick_task. cbn [taskFunc delay_ms period_ms isReady].
  by rewrite (proj2 (truthy_true f)).
Qed.

Lemma run_then_tick_fires (ops : list op) (w : World) (f : fptr) (N r : Z) :
  (i < MAX_TASKS)%nat -> f <> NULL -> 1 <= N < 2 ^ 32 ->
  Z.of_nat (ticks ops) = N - 1 ->
  tasks (st w) !! i = Some (mkTask f N N r) ->
  tasks (st (tmTick run_cb (run run_cb sIdleTask w ops))) !! i =
    Some (mkTask f N N 1).
Proof.
  intros Hi Hf HN Ht Hs.
  destruct (run_task_countdown ops w f N N r Hi Hf ltac:(lia) ltac:(lia) Hs)
    as (r' & Hr' & _).
  replace (N - Z.of_nat (ticks ops)) with 1 in Hr' by lia.
  by eapply tmTick_task_fires.
Qed.

Lemma ticks_replicate (n : nat) : ticks (replicate n Tick) = n.
Proof. induction n as [|n IH]; [done|]. cbn [replicate ticks]. by rewrite IH. Qed.

Lemma run_replicate_S (n : nat) (w : World) :
  run run_cb sIdleTask w (replicate (S n) Tick) =
  run run_cb sIdleTask (tmTick run_cb w) (replicate n Tick).
Proof. cbn [replicate]. apply run_Tick. Qed.

(** Ticks alone never clear the flag of a task: it stays set until a
    [tmUpdate] comes, however many ticks pass. *)
Lemma run_ticks_flagged (n : nat) :
  forall (w : World) (f : fptr) (N d : Z),
    (i < MAX_TASKS)%nat -> f <> NULL -> 1 <= d <= N -> N < 2 ^ 32 ->
    tasks (st w) !! i = Some (mkTask f N d 1) ->
    exists d',
      1 <= d' <= N /\
      tasks (st (run run_cb sIdleTask w (replicate n Tick))) !! i =
        Some (mkTask f N d' 1).
Proof.
  induction n as [|n IH]; intros w f N d Hi Hf Hd HN Hs.
  - exists d. by rewrite run_nil.
  - rewrite run_replicate_S.
    pose proof (tmTick_task run_cb i _ w cb_keeps Hi Hs) as Hs'.
    unfold tick_task in Hs'. cbn [taskFunc delay_ms period_ms isReady] in Hs'.
    rewrite (proj2 (truthy_true f)) in Hs' by done.
    destruct (Z.ltb_spec 0 d); [|lia].
    rewrite wrap32_small in Hs' by (unfold u32; lia).
    destruct (Z.eqb_spec (d - 1) 0).
    + by apply (IH _ f N N Hi Hf ltac:(lia) HN).
    + by apply (IH _ f N (d - 1) Hi Hf ltac:(lia) HN).
Qed.

(** Ticks alone, fewer than the counter: the slot counts down and its
    flag is as it was. *)
Lemma run_ticks_countdown (n : nat) :
  forall (w : World) (f : fptr) (N d r : Z),
    (i < MAX_TASKS)%nat -> f <> NULL ->
    Z.of_nat n < d -> d <= N < 2 ^ 32 ->
    tasks (st w) !! i = Some (mkTask f N d r) ->
    tasks (st (run run_cb sIdleTask w (replicate n Tick))) !! i =
      Some (mkTask f N (d - Z.of_nat n) r).
Proof.
  induction n as [|n IH]; intros w f N d r Hi Hf Hn Hd Hs.
  - rewrite run_nil. cbn [Z.of_nat]. by rewrite Z.sub_0_r.
  - rewrite run_replicate_S.
    pose proof (tmTick_task run_cb i _ w cb_keeps Hi Hs) as Hs'.
    unfold tick_task in Hs'. cbn [taskFunc delay_ms period_ms isReady] in Hs'.
    rewrite (proj2 (truthy_true f)) in Hs' by done.
    destruct (Z.ltb_spec 0 d); [|lia].
    rewrite wrap32_small in Hs' by (unfold u32; lia).
    destruct (Z.eqb_spec (d - 1) 0); [lia|].
    rewrite (IH _ f N (d - 1) r Hi Hf ltac:(lia) ltac:(lia) Hs').
    do 2 f_equal. lia.
Qed.

(** C3: a task added with a period [N >= 1] is not flagged before the
    [N]-th tick after [tmAddTask] and is flagged by the [N]-th.  The flag
    then stays set, however many ticks pass, until the next [tmUpdate],
    which clears it and calls the task.  After [N] more ticks, counted from
    the [N]-th, the task is flagged again, wherever calls of [tmUpdate]
    fall among these ticks, and a consumed flag stays clear until then. *)
Theorem periodic_task_firing (f : fptr) (N : Z) (s0 s1 : State)
    (lg : list event) :
  wf s0 -> f <> NULL -> 1 <= N < 2 ^ 32 ->
  tmAddTask f N s0 = (Z.of_nat i, s1) ->
  (forall ops, Z.of_nat (ticks ops) < N ->
     isReady (task_at i (st (run run_cb sIdleTask (mkWorld s1 lg) ops))) = 0) /\
  (forall ops, Z.of_nat (ticks ops) = N - 1 ->
     let w2 := tmTick run_cb (run run_cb sIdleTask (mkWorld s1 lg) ops) in
     let w3 := tmUpdate run_cb sIdleTask w2 in
     isReady (task_at i (st w2)) = 1 /\
     isReady (task_at i (st w3)) = 0 /\
     (occurrences (RunTask f) (log w2) < occurrences (RunTask f) (log w3))%nat /\
     (forall ops', Z.of_nat (ticks ops') < N ->
        isReady (task_at i (st (run run_cb sIdleTask w3 ops'))) = 0) /\
     (forall ops', Z.of_nat (ticks ops') = N - 1 ->
        isReady (task_at i
          (st (tmTick run_cb (run run_cb sIdleTask w2 ops')))) = 1) /\
     (forall n,
        isReady (task_at i
          (st (run run_cb sIdleTask w2 (replicate n Tick)))) = 1 /\
        isReady (task_at i
          (st (tmUpdate run_cb sIdleTask
                 (run run_cb sIdleTask w2 (replicate n Tick))))) = 0 /\
        (occurrences (RunTask f)
           (log (run run_cb sIdleTask w2 (replicate n Tick))) <
         occurrences (RunTask f)
           (log (tmUpdate run_cb sIdleTask
                   (run run_cb sIdleTask w2 (replicate n Tick)))))%nat) /\
     (forall n post, Z.of_nat n + Z.of_nat (ticks post) < N ->
        isReady (task_at i
          (st (run run_cb sIdleTask
                 (tmUpdate run_cb sIdleTask
                    (run run_cb sIdleTask w2 (replicate n Tick))) post))) = 0) /\
     (forall n post, Z.of_nat n + Z.of_nat (ticks post) = N - 1 ->
        isReady (task_at i
          (st (tmTick run_cb
                 (run run_cb sIdleTask
                    (tmUpdate run_cb sIdleTask
                       (run run_cb sIdleTask w2 (replicate n Tick))) post)))) = 1)).
Proof.
  intros Hwf Hf HN Hadd.
  destruct (tmAddTask_slot f N s0 i s1 Hwf Hadd) as [Hi Hs1].
  assert (consume_task (mkTask f N N 1) = mkTask f N N 0) as Hc.
  { unfold consume_task. cbn [taskFunc delay_ms period_ms isReady].
    by rewrite (proj2 (truthy_true f)). }
  assert (forall d, consume_task (mkTask f N d 1) = mkTask f N d 0) as Hcd.
  { intros d. unfold consume_task. cbn [taskFunc delay_ms period_ms isReady].
    by rewrite (proj2 (truthy_true f)). }
  split.
  - intros ops Ht.
    destruct (run_task_countdown ops (mkWorld s1 lg) f N N 0 Hi Hf Ht
                ltac:(lia) Hs1) as (r' & Hr' & Hz).
    rewrite (task_at_lookup _ _ _ Hr'). cbn [isReady]. auto.
  - intros ops Ht. cbv zeta.
    generalize (run_then_tick_fires ops (mkWorld s1 lg) f N 0 Hi Hf HN Ht Hs1).
    generalize (tmTick run_cb (run run_cb sIdleTask (mkWorld s1 lg) ops)).
    intros w2 Hw2.
    split; [by rewrite (task_at_lookup _ _ _ Hw2)|].
    split; [|split; [|split; [|split; [|split; [|split]]]]].
    + destruct (tmUpdate_task run_cb sIdleTask i _ w2 cb_keeps idle_keeps Hi Hw2)
        as [Hw3 _].
      rewrite Hc in Hw3. by rewrite (task_at_lookup _ _ _ Hw3).
    + destruct (tmUpdate_task run_cb sIdleTask i _ w2 cb_keeps idle_keeps Hi Hw2)
        as [_ Hlog].
      cbn [taskFunc isReady] in Hlog. apply Hlog.
      by rewrite (proj2 (truthy_true f)).
    + intros ops' Ht'.
      destruct (tmUpdate_task run_cb sIdleTask i _ w2 cb_keeps idle_keeps Hi Hw2)
        as [Hw3 _].
      rewrite Hc in Hw3.
      destruct (run_task_countdown ops' _ f N N 0 Hi Hf Ht' ltac:(lia) Hw3)
        as (r' & Hr' & Hz).
      rewrite (task_at_lookup _ _ _ Hr'). cbn [isReady]. auto.
    + intros ops' Ht'.
      by rewrite (task_at_lookup _ _ _
                    (run_then_tick_fires ops' w2 f N 1 Hi Hf HN Ht' Hw2)).
    + intros n.
      destruct (run_ticks_flagged n w2 f N N Hi Hf ltac:(lia) ltac:(lia) Hw2)
        as (d' & Hd' & Hn).
      destruct (tmUpdate_task run_cb sIdleTask i _ _ cb_keeps idle_keeps Hi Hn)
        as [Hu Hlog].
      rewrite Hcd in Hu. cbn [taskFunc isReady] in Hlog.
      split; [by rewrite (task_at_lookup _ _ _ Hn)|].
      split; [by rewrite (task_at_lookup _ _ _ Hu)|].
      apply Hlog. by rewrite (proj2 (truthy_true f)).
    + intros n post Hnp.
      pose proof (run_ticks_countdown n w2 f N N 1 Hi Hf ltac:(lia) ltac:(lia)
                    Hw2) as Hn.
      destruct (tmUpdate_task run_cb sIdleTask i _ _ cb_keeps idle_keeps Hi Hn)
        as [Hu _].
      rewrite Hcd in Hu.
      destruct (run_task_countdown post _ f N (N - Z.of_nat n) 0 Hi Hf
                  ltac:(lia) ltac:(lia) Hu) as (r' & Hr' & Hz).
      rewrite (task_at_lookup _ _ _ Hr'). cbn [isReady]. auto.
    + intros n post Hnp.
      pose proof (run_ticks_countdown n w2 f N N 1 Hi Hf ltac:(lia) ltac:(lia)
                    Hw2) as Hn.
      destruct (tmUpdate_task run_cb sIdleTask i _ _ cb_keeps idle_keeps Hi Hn)
        as [Hu _].
      rewrite Hcd in Hu.
      destruct (run_task_countdown post _ f N (N - Z.of_nat n) 0 Hi Hf
                  ltac:(lia) ltac:(lia) Hu) as (r' & Hr' & Hz).
      replace (N - Z.of_nat n - Z.of_nat (ticks post)) with 1 in Hr' by lia.
      by rewrite (task_at_lookup _ _ _ (tmTick_task_fires _ f N r' Hi Hf Hr')).
Qed.

(** A slot whose counter is 0 is not touched by [tmTick], and without a
    flag it is not touched by [tmUpdate] either. *)
Lemma run_task_idle_slot (ops : list op) :
  forall (w : World) (f : fptr) (p : Z),
    (i < MAX_TASKS)%nat ->
    tasks (st w) !! i = Some (mkTask f p 0 0) ->
    tasks (st (run run_cb sIdleTask w ops)) !! i = Some (mkTask f p 0 0).
Proof.
  induction ops as [|o ops IH]; intros w f p Hi Hs; [by rewrite run_nil|].
  destruct o.
  - rewrite run_Tick. apply IH; [done|].
    rewrite (tmTick_task run_cb i _ w cb_keeps Hi Hs).
    unfold tick_task. cbn [taskFunc delay_ms]. by destruct (truthy f).
  - rewrite run_Update. apply IH; [done|].
    destruct (tmUpdate_task run_cb sIdleTask i _ w cb_keeps idle_keeps Hi Hs)
      as [-> _].
    unfold consume_task. cbn [taskFunc isReady].
    by rewrite andb_false_r.
Qed.

(** C9: a task added with period 0 starts with its counter at 0; no
    sequence of [tmTick] calls, with or without [tmUpdate] calls in
    between, flags it, and the counter stays at 0. *)
Theorem zero_period_never_ready (f : fptr) (s0 s1 : State) (lg : list event) :
  wf s0 ->
  tmAddTask f 0 s0 = (Z.of_nat i, s1) ->
  forall ops,
    isReady (task_at i (st (run run_cb sIdleTask (mkWorld s1 lg) ops))) = 0 /\
    delay_ms (task_at i (st (run run_cb sIdleTask (mkWorld s1 lg) ops))) = 0.
Proof.
  intros Hwf Hadd ops.
  destruct (tmAddTask_slot f 0 s0 i s1 Hwf Hadd) as [Hi Hs1].
  by rewrite (task_at_lookup _ _ _
                (run_task_idle_slot ops (mkWorld s1 lg) f 0 Hi Hs1)).
Qed.

End PeriodicTask.

(** ** One-shot timers *)

Lemma callback_after_clear j s :
  callback (timer_at j
    (set_timer j (mkTimer 0 (start_time (timer_at j s)) (delay (timer_at j s))
                          (callback (timer_at j s))) s)) =
  callback (timer_at j s).
Proof.
  destruct (Nat.lt_ge_cases j (length (timers s))) as [Hlt|Hge].
  - by rewrite timer_at_set_timer_eq.
  - unfold timer_at, set_timer. cbn [timers]. by rewrite list_insert_ge.
Qed.

Lemma sole_timer_set_timer i f j t s :
  sole_timer i f s -> (j <> i -> callback t <> f) ->
  sole_timer i f (set_timer j t s).
Proof.
  intros Hsole Ht k Hk Hki.
  destruct (Nat.eq_dec j k) as [<-|Hne].
  - destruct (Nat.lt_ge_cases j (length (timers s))) as [Hlt|Hge].
    + rewrite timer_at_set_timer_eq by done. by apply Ht.
    + unfold timer_at, set_timer. cbn [timers]. rewrite list_insert_ge by done.
      by apply Hsole.
  - rewrite timer_at_set_timer_ne by done. by apply Hsole.
Qed.

Lemma sole_timer_ext i f s s' :
  timers s' = timers s -> sole_timer i f s -> sole_timer i f s'.
Proof.
  intros Heq Hsole j Hj Hji. unfold timer_at. rewrite Heq. by apply Hsole.
Qed.

Lemma wrap32_succ_elapsed m st0 :
  wrap32 (wrap32 (m + 1) - st0) = wrap32 (wrap32 (m - st0) + 1).
Proof.
  unfold wrap32. rewrite Zminus_mod_idemp_l, Zplus_mod_idemp_l.
  f_equal. lia.
Qed.

Lemma wrap32_range z : u32 (wrap32 z).
Proof. unfold u32, wrap32. apply Z.mod_pos_bound. lia. Qed.

Lemma callback_eqb_first (f : fptr) (s : State) (i : nat) :
  first_index (fun j => callback (timer_at j s) =? f) 0 MAX_TIMERS = Some i <->
  (i < MAX_TIMERS)%nat /\ callback (timer_at i s) = f /\
  (forall j, (j < i)%nat -> callback (timer_at j s) <> f).
Proof.
  rewrite first_index_Some. split.
  - intros (Hr & Hi & Hm). repeat split; [lia | by apply Z.eqb_eq |].
    intros j Hj. apply Z.eqb_neq, Hm. lia.
  - intros (Hr & Hi & Hm). repeat split; [lia | lia | by apply Z.eqb_eq |].
    intros j Hj. apply Z.eqb_neq, Hm. lia.
Qed.

Lemma callback_eqb_none (f : fptr) (s : State) :
  first_index (fun j => callback (timer_at j s) =? f) 0 MAX_TIMERS = None <->
  (forall j, (j < MAX_TIMERS)%nat -> callback (timer_at j s) <> f).
Proof.
  rewrite first_index_None. split.
  - intros H j Hj. apply Z.eqb_neq, H. lia.
  - intros H j Hj. apply Z.eqb_neq, H. lia.
Qed.

(** [tmTimerStartOnce] for a function pointer that no slot holds: the
    first free slot is armed. *)
Lemma tmTimerStartOnce_fresh (D : Z) (f : fptr) (s : State) (i : nat) :
  (forall j, (j < MAX_TIMERS)%nat -> callback (timer_at j s) <> f) ->
  (i < MAX_TIMERS)%nat -> callback (timer_at i s) = NULL ->
  (forall j, (j < i)%nat -> callback (timer_at j s) <> NULL) ->
  tmTimerStartOnce D f s = (0, set_timer i (mkTimer 1 (millis s) D f) s).
Proof.
  intros Hfresh Hi Hfree Hfirst. unfold tmTimerStartOnce.
  rewrite (proj2 (callback_eqb_none f s) Hfresh).
  by rewrite (proj2 (callback_eqb_first 0 s i) (conj Hi (conj Hfree Hfirst))).
Qed.

(** [tmTimerStartOnce] for a function pointer that a slot holds: the
    first such slot gets the new delay, and is armed if it was not. *)
Lemma tmTimerStartOnce_held (D : Z) (f : fptr) (s : State) (i : nat) :
  (i < MAX_TIMERS)%nat -> callback (timer_at i s) = f ->
  (forall j, (j < i)%nat -> callback (timer_at j s) <> f) ->
  tmTimerStartOnce D f s =
  (0, set_timer i
        (if truthy (active (timer_at i s))
         then mkTimer (active (timer_at i s)) (start_time (timer_at i s)) D f
         else mkTimer 1 (millis s) D f) s).
Proof.
  intros Hi Hheld Hfirst. unfold tmTimerStartOnce.
  rewrite (proj2 (callback_eqb_first f s i) (conj Hi (conj Hheld Hfirst))).
  by rewrite Hheld.
Qed.

Section OneShot.

Variable run_cb : fptr -> State -> State.
Variable sIdleTask : State -> State.
Variable i : nat.
Variable f : fptr.

Hypothesis cb_keeps : forall g, keeps_timer i f (run_cb g).
Hypothesis idle_keeps : keeps_timer i f sIdleTask.

(** One iteration of the timer pass, seen from slot [i]. *)
Lemma timer_step_slot (t : OneShotTimer_s) (j : nat) (x : World) :
  (j < MAX_TIMERS)%nat -> f <> NULL ->
  timers (st x) !! i = Some t -> callback t = f ->
  sole_timer i f (st x) ->
  timers (st (timer_step run_cb j x)) !! i =
    Some (if (j =? i)%nat then fire_timer (millis (st x)) t else t) /\
  millis (st (timer_step run_cb j x)) = millis (st x) /\
  sole_timer i f (st (timer_step run_cb j x)) /\
  occurrences (FireTimer f) (log (timer_step run_cb j x)) =
    (occurrences (FireTimer f) (log x) +
     (if (j =? i)%nat then if expired t (millis (st x)) then 1 else 0 else 0))%nat.
Proof.
  intros Hj Hf Hs Hcb Hso.
  destruct (Nat.eqb_spec j i) as [->|Hne].
  - unfold timer_step, fire_timer. rewrite (timer_at_lookup _ _ _ Hs).
    destruct (expired t (millis (st x))); [|by rewrite Nat.add_0_r].
    cbn [st]. rewrite timer_at_set_timer_eq by (by eapply lookup_lt_Some).
    cbn [callback]. rewrite Hcb, (proj2 (truthy_true f)) by done.
    cbn [call st log].
    destruct (cb_keeps f (set_timer i (mkTimer 0 (start_time t) (delay t) f) (st x)))
      as (-> & -> & Hkeep).
    split; [|split; [|split]].
    + simpl. by rewrite list_lookup_insert_eq by (by eapply lookup_lt_Some).
    + done.
    + apply Hkeep, sole_timer_set_timer; done.
    + rewrite occurrences_snoc_eq. lia.
  - rewrite Nat.add_0_r. unfold timer_step. destruct (expired _ _); [|done].
    cbn [st log]. rewrite callback_after_clear.
    set (s1 := set_timer j _ (st x)).
    assert (timers s1 !! i = timers (st x) !! i) as Hs1.
    { subst s1. simpl. by rewrite list_lookup_insert_ne. }
    assert (sole_timer i f s1) as Hso1.
    { apply sole_timer_set_timer; [done|]. intros _. simpl.
      apply Hso; [lia | done]. }
    destruct (truthy _).
    + cbn [call st log].
      destruct (cb_keeps (callback (timer_at j (st x))) s1) as (-> & -> & Hkeep).
      split; [by rewrite Hs1|]. split; [done|]. split; [by apply Hkeep|].
      rewrite occurrences_snoc_ne; [done|].
      intros [= Heq]. symmetry in Heq. revert Heq. apply Hso; [lia | done].
    + cbn [st log]. split; [by rewrite Hs1|]. done.
Qed.

(** The timer pass, seen from slot [i]: the slot is tested against the
    clock once, and its callback is called when the test succeeds. *)
Lemma tmTimerProcess_slot (t : OneShotTimer_s) (w : World) :
  (i < MAX_TIMERS)%nat -> f <> NULL ->
  timers (st w) !! i = Some t -> callback t = f ->
  sole_timer i f (st w) ->
  timers (st (tmTimerProcess run_cb w)) !! i =
    Some (fire_timer (millis (st w)) t) /\
  millis (st (tmTimerProcess run_cb w)) = millis (st w) /\
  sole_timer i f (st (tmTimerProcess run_cb w)) /\
  occurrences (FireTimer f) (log (tmTimerProcess run_cb w)) =
    (occurrences (FireTimer f) (log w) +
     (if expired t (millis (st w)) then 1 else 0))%nat.
Proof.
  intros Hi Hf Ht Hcb Hsole. unfold tmTimerProcess.
  pose proof (for_loop_inv0 (fun j x =>
    timers (st x) !! i =
      Some (if (i <? j)%nat then fire_timer (millis (st w)) t else t) /\
    millis (st x) = millis (st w) /\
    sole_timer i f (st x) /\
    occurrences (FireTimer f) (log x) =
      (occurrences (FireTimer f) (log w) +
       (if (i <? j)%nat then if expired t (millis (st w)) then 1 else 0 else 0))%nat)
    (timer_step run_cb) MAX_TIMERS w) as Hinv.
  cbv beta in Hinv.
  assert ((i <? MAX_TIMERS)%nat = true) as Hlt by (by apply Nat.ltb_lt).
  rewrite Hlt in Hinv. apply Hinv; clear Hinv.
  - split; [done|]. split; [done|]. split; [done|]. cbn [Nat.ltb Nat.leb]. lia.
  - intros j x Hj (Hs & Hm & Hso & Hc).
    destruct (Nat.lt_trichotomy i j) as [Hij|[<-|Hij]].
    + assert ((i <? j)%nat = true) as E1 by (apply Nat.ltb_lt; lia).
      assert ((i <? S j)%nat = true) as E2 by (apply Nat.ltb_lt; lia).
      rewrite E1 in Hs, Hc. rewrite E2.
      destruct (timer_step_slot _ j x Hj Hf Hs) as (G1 & G2 & G3 & G4);
        [by unfold fire_timer; destruct (expired _ _) | done |].
      assert ((j =? i)%nat = false) as E3 by (apply Nat.eqb_neq; lia).
      rewrite E3 in G1, G4. rewrite G1, G2, G4, Hm, Hc.
      split; [done|]. split; [done|]. split; [done | lia].
    + assert ((i <? i)%nat = false) as E1 by (apply Nat.ltb_ge; lia).
      assert ((i <? S i)%nat = true) as E2 by (apply Nat.ltb_lt; lia).
      rewrite E1 in Hs, Hc. rewrite E2.
      destruct (timer_step_slot _ i x Hj Hf Hs Hcb Hso) as (G1 & G2 & G3 & G4).
      rewrite Nat.eqb_refl in G1, G4. rewrite G1, G2, G4, Hm, Hc.
      split; [done|]. split; [done|]. split; [done | lia].
    + assert ((i <? j)%nat = false) as E1 by (apply Nat.ltb_ge; lia).
      assert ((i <? S j)%nat = false) as E2 by (apply Nat.ltb_ge; lia).
      rewrite E1 in Hs, Hc. rewrite E2.
      destruct (timer_step_slot _ j x Hj Hf Hs Hcb Hso) as (G1 & G2 & G3 & G4).
      assert ((j =? i)%nat = false) as E3 by (apply Nat.eqb_neq; lia).
      rewrite E3 in G1, G4. rewrite G1, G2, G4, Hm, Hc.
      split; [done|]. split; [done|]. split; [done | lia].
Qed.

Lemma tmTick_timer (t : OneShotTimer_s) (w : World) :
  (i < MAX_TIMERS)%nat -> f <> NULL ->
  timers (st w) !! i = Some t -> callback t = f ->
  sole_timer i f (st w) ->
  timers (st (tmTick run_cb w)) !! i = Some (fire_timer (millis (st w)) t) /\
  millis (st (tmTick run_cb w)) = wrap32 (millis (st w) + 1) /\
  sole_timer i f (st (tmTick run_cb w)) /\
  occurrences (FireTimer f) (log (tmTick run_cb w)) =
    (occurrences (FireTimer f) (log w) +
     (if expired t (millis (st w)) then 1 else 0))%nat.
Proof.
  intros Hi Hf Ht Hcb Hsole.
  destruct (tick_tasks_frame (st w)) as (Htm & Hmi & _ & _).
  destruct (tmTimerProcess_slot t (mkWorld (tick_tasks (st w)) (log w)) Hi Hf)
    as (H1 & H2 & H3 & H4).
  - by rewrite st_mk, Htm.
  - done.
  - rewrite st_mk. by apply (sole_timer_ext i f (st w)).
  - rewrite st_mk, Hmi in H1, H2, H4. rewrite log_mk in H4.
    rewrite tmTick_eq, st_mk, log_mk, timers_set_millis, millis_set_millis.
    rewrite H1, H2, H4.
    split; [done|]. split; [done|]. split; [|done].
    eapply sole_timer_ext; [|exact H3]. by rewrite timers_set_millis.
Qed.

Lemma tmUpdate_timer (t : OneShotTimer_s) (w : World) :
  timers (st w) !! i = Some t ->
  sole_timer i f (st w) ->
  timers (st (tmUpdate run_cb sIdleTask w)) !! i = Some t /\
  millis (st (tmUpdate run_cb sIdleTask w)) = millis (st w) /\
  sole_timer i f (st (tmUpdate run_cb sIdleTask w)) /\
  occurrences (FireTimer f) (log (tmUpdate run_cb sIdleTask w)) =
    occurrences (FireTimer f) (log w).
Proof.
  intros Ht Hsole.
  pose proof (tmUpdate_preserves run_cb sIdleTask
    (fun s => timers s !! i = Some t /\ millis s = millis (st w) /\
              sole_timer i f s) w) as Hpres.
  cbv beta in Hpres. destruct Hpres as (H1 & H2 & H3).
  - intros g s (Hs & Hm & Hso). destruct (cb_keeps g s) as (-> & -> & Hk). auto.
  - intros s (Hs & Hm & Hso). destruct (idle_keeps s) as (-> & -> & Hk). auto.
  - intros k t' s (Hs & Hm & Hso). done.
  - intros b s (Hs & Hm & Hso). done.
  - done.
  - split; [done|]. split; [done|]. split; [done|]. by apply tmUpdate_log.
Qed.

(** An armed timer whose delay has not elapsed at the start of any tick of
    the schedule is still armed after it and has not been called. *)
Lemma run_timer_pending (ops : list op) :
  forall (w : World) (a st0 D : Z),
    (i < MAX_TIMERS)%nat -> f <> NULL -> a <> 0 ->
    u32 (millis (st w)) ->
    timers (st w) !! i = Some (mkTimer a st0 D f) ->
    sole_timer i f (st w) ->
    wrap32 (millis (st w) - st0) + Z.of_nat (ticks ops) <= D < 2 ^ 32 ->
    timers (st (run run_cb sIdleTask w ops)) !! i = Some (mkTimer a st0 D f) /\
    wrap32 (millis (st (run run_cb sIdleTask w ops)) - st0) =
      wrap32 (millis (st w) - st0) + Z.of_nat (ticks ops) /\
    millis (st (run run_cb sIdleTask w ops)) =
      wrap32 (millis (st w) + Z.of_nat (ticks ops)) /\
    sole_timer i f (st (run run_cb sIdleTask w ops)) /\
    occurrences (FireTimer f) (log (run run_cb sIdleTask w ops)) =
      occurrences (FireTimer f) (log w).
Proof.
  induction ops as [|o ops IH]; intros w a st0 D Hi Hf Ha Hm Hs Hsole He.
  - rewrite run_nil. cbn [ticks Z.of_nat]. rewrite !Z.add_0_r.
    rewrite (wrap32_small (millis (st w))) by done. by repeat split.
  - pose proof (wrap32_range (millis (st w) - st0)) as He0. unfold u32 in He0.
    destruct o; cbn [ticks] in *.
    + rewrite run_Tick.
      destruct (tmTick_timer _ w Hi Hf Hs eq_refl Hsole) as (H1 & H2 & H3 & H4).
      assert (expired (mkTimer a st0 D f) (millis (st w)) = false) as Hex.
      { unfold expired. cbn [active delay start_time].
        destruct (Z.leb_spec D (wrap32 (millis (st w) - st0))); [lia|].
        by rewrite andb_false_r. }
      unfold fire_timer in H1. rewrite Hex in H1, H4.
      assert (wrap32 (millis (st (tmTick run_cb w)) - st0) =
              wrap32 (millis (st w) - st0) + 1) as He1.
      { rewrite H2, wrap32_succ_elapsed. apply wrap32_small. unfold u32. lia. }
      destruct (IH (tmTick run_cb w) a st0 D Hi Hf Ha) as (G1 & G2 & G3 & G4 & G5).
      * rewrite H2. apply wrap32_range.
      * done.
      * done.
      * rewrite He1. lia.
      * split; [done|]. split; [rewrite G2, He1; lia|]. split; [|split; [done|]].
        -- rewrite G3, H2. unfold wrap32. rewrite Zplus_mod_idemp_l.
           f_equal. lia.
        -- rewrite G5, H4. lia.
    + rewrite run_Update.
      destruct (tmUpdate_timer _ w Hs Hsole) as (H1 & H2 & H3 & H4).
      destruct (IH (tmUpdate run_cb sIdleTask w) a st0 D Hi Hf Ha)
        as (G1 & G2 & G3 & G4 & G5).
      * by rewrite H2.
      * done.
      * done.
      * by rewrite H2.
      * rewrite H2 in G2, G3. split; [done|]. split; [done|]. split; [done|].
        split; [done|]. by rewrite G5.
Qed.

(** The tick that starts with the delay elapsed disarms the timer and calls
    its callback once. *)
Lemma tmTick_timer_fires (w : World) (a st0 D : Z) :
  (i < MAX_TIMERS)%nat -> f <> NULL -> a <> 0 ->
  timers (st w) !! i = Some (mkTimer a st0 D f) ->
  sole_timer i f (st w) ->
  D <= wrap32 (millis (st w) - st0) ->
  timers (st (tmTick run_cb w)) !! i = Some (mkTimer 0 st0 D f) /\
  sole_timer i f (st (tmTick run_cb w)) /\
  occurrences (FireTimer f) (log (tmTick run_cb w)) =
    S (occurrences (FireTimer f) (log w)).
Proof.
  intros Hi Hf Ha Hs Hsole He.
  destruct (tmTick_timer _ w Hi Hf Hs eq_refl Hsole) as (H1 & H2 & H3 & H4).
  assert (expired (mkTimer a st0 D f) (millis (st w)) = true) as Hex.
  { unfold expired. cbn [active delay start_time].
    rewrite (proj2 (truthy_true a)) by done.
    by destruct (Z.leb_spec D (wrap32 (millis (st w) - st0))); [|lia]. }
  unfold fire_timer in H1. rewrite Hex in H1, H4.
  split; [done|]. split; [done|]. rewrite H4. lia.
Qed.

(** A disarmed timer stays disarmed and is not called, whatever the
    schedule. *)
Lemma run_timer_spent (ops : list op) :
  forall (w : World) (st0 D : Z),
    (i < MAX_TIMERS)%nat -> f <> NULL ->
    timers (st w) !! i = Some (mkTimer 0 st0 D f) ->
    sole_timer i f (st w) ->
    timers (st (run run_cb sIdleTask w ops)) !! i = Some (mkTimer 0 st0 D f) /\
    occurrences (FireTimer f) (log (run run_cb sIdleTask w ops)) =
      occurrences (FireTimer f) (log w).
Proof.
  induction ops as [|o ops IH]; intros w st0 D Hi Hf Hs Hsole;
    [by rewrite run_nil|].
  destruct o.
  - rewrite run_Tick.
    destruct (tmTick_timer _ w Hi Hf Hs eq_refl Hsole) as (H1 & H2 & H3 & H4).
    assert (expired (mkTimer 0 st0 D f) (millis (st w)) = false) as Hex
      by reflexivity.
    unfold fire_timer in H1. rewrite Hex in H1, H4.
    destruct (IH (tmTick run_cb w) st0 D Hi Hf H1 H3) as (G1 & G2).
    split; [done|]. rewrite G2, H4. lia.
  - rewrite run_Update.
    destruct (tmUpdate_timer _ w Hs Hsole) as (H1 & H2 & H3 & H4).
    destruct (IH (tmUpdate run_cb sIdleTask w) st0 D Hi Hf H1 H3) as (G1 & G2).
    split; [done|]. by rewrite G2.
Qed.

(** C2, as the code has it: a timer armed in a fresh slot with a delay
    [D >= 1] is not called during the first [D] ticks and is still armed
    after them; the tick after these, the [D+1]-th, calls it once and
    leaves the slot disarmed and still holding the callback; no tick or
    update after that calls it again. *)
Theorem one_shot_fires_once (D : Z) (s0 : State) (lg : list event) :
  wf s0 -> f <> NULL -> 1 <= D < 2 ^ 32 -> u32 (millis s0) ->
  (forall j, (j < MAX_TIMERS)%nat -> callback (timer_at j s0) <> f) ->
  (i < MAX_TIMERS)%nat -> callback (timer_at i s0) = NULL ->
  (forall j, (j < i)%nat -> callback (timer_at j s0) <> NULL) ->
  fst (tmTimerStartOnce D f s0) = 0 /\
  (forall ops, Z.of_nat (ticks ops) <= D ->
     occurrences (FireTimer f)
       (log (run run_cb sIdleTask
               (mkWorld (snd (tmTimerStartOnce D f s0)) lg) ops)) =
       occurrences (FireTimer f) lg /\
     timer_at i (st (run run_cb sIdleTask
                       (mkWorld (snd (tmTimerStartOnce D f s0)) lg) ops)) =
       mkTimer 1 (millis s0) D f) /\
  (forall ops, Z.of_nat (ticks ops) = D ->
     let w2 := tmTick run_cb (run run_cb sIdleTask
                 (mkWorld (snd (tmTimerStartOnce D f s0)) lg) ops) in
     occurrences (FireTimer f) (log w2) = S (occurrences (FireTimer f) lg) /\
     timer_at i (st w2) = mkTimer 0 (millis s0) D f /\
     forall ops',
       occurrences (FireTimer f) (log (run run_cb sIdleTask w2 ops')) =
         S (occurrences (FireTimer f) lg) /\
       timer_at i (st (run run_cb sIdleTask w2 ops')) =
         mkTimer 0 (millis s0) D f).
Proof.
  intros [_ Hlen] Hf HD Hm Hfresh Hi Hfree Hfirst.
  rewrite (tmTimerStartOnce_fresh D f s0 i Hfresh Hi Hfree Hfirst).
  cbn [fst snd].
  assert (exists w1, w1 = mkWorld (set_timer i (mkTimer 1 (millis s0) D f) s0) lg)
    as (w1 & Hw1) by eauto.
  rewrite <- Hw1.
  assert (timers (st w1) !! i = Some (mkTimer 1 (millis s0) D f)) as Hs1.
  { rewrite Hw1, st_mk, timers_set_timer. apply list_lookup_insert_eq. lia. }
  assert (sole_timer i f (st w1)) as Hsole.
  { rewrite Hw1, st_mk. intros j Hj Hji.
    rewrite timer_at_set_timer_ne by done. by apply Hfresh. }
  assert (millis (st w1) = millis s0) as Hm1.
  { by rewrite Hw1, st_mk, millis_set_timer. }
  assert (occurrences (FireTimer f) (log w1) = occurrences (FireTimer f) lg)
    as Hlg.
  { by rewrite Hw1, log_mk. }
  clear Hw1.
  assert (wrap32 (millis (st w1) - millis s0) = 0) as He.
  { by rewrite Hm1, Z.sub_diag. }
  assert (forall ops, Z.of_nat (ticks ops) <= D ->
    timers (st (run run_cb sIdleTask w1 ops)) !! i =
      Some (mkTimer 1 (millis s0) D f) /\
    wrap32 (millis (st (run run_cb sIdleTask w1 ops)) - millis s0) =
      Z.of_nat (ticks ops) /\
    sole_timer i f (st (run run_cb sIdleTask w1 ops)) /\
    occurrences (FireTimer f) (log (run run_cb sIdleTask w1 ops)) =
      occurrences (FireTimer f) lg) as Hpend.
  { intros ops Ht.
    destruct (run_timer_pending ops w1 1 (millis s0) D Hi Hf ltac:(lia)
                ltac:(by rewrite Hm1) Hs1 Hsole ltac:(rewrite He; lia))
      as (G1 & G2 & _ & G4 & G5).
    rewrite He in G2. rewrite Hlg in G5. done. }
  split; [done|]. split.
  - intros ops Ht. destruct (Hpend ops Ht) as (G1 & _ & _ & G5).
    by rewrite (timer_at_lookup _ _ _ G1).
  - intros ops Ht. cbv zeta.
    destruct (Hpend ops ltac:(lia)) as (G1 & G2 & G4 & G5).
    destruct (tmTick_timer_fires (run run_cb sIdleTask w1 ops) 1 (millis s0) D
                Hi Hf ltac:(lia) G1 G4 ltac:(lia)) as (F1 & F2 & F3).
    rewrite G5 in F3.
    revert F1 F2 F3.
    generalize (tmTick run_cb (run run_cb sIdleTask w1 ops)).
    intros w2 F1 F2 F3.
    split; [done|]. split; [by rewrite (timer_at_lookup _ _ _ F1)|].
    intros ops'.
    destruct (run_timer_spent ops' w2 (millis s0) D Hi Hf F1 F2) as (S1 & S2).
    by rewrite S2, (timer_at_lookup _ _ _ S1).
Qed.

(** C4: [tmTimerStartOnce] for a function pointer that a slot already
    holds writes the new delay into the first such slot; it arms the slot
    and takes the clock as start time only when the slot was not armed.  An
    armed slot keeps its start time, and is called in the tick that starts
    with the clock at that start time plus the new delay, not before; when
    that moment has passed already it is called in the next tick. *)
Theorem rearm_keeps_start (D2 : Z) (s : State) (lg : list event) :
  wf s -> (i < MAX_TIMERS)%nat -> callback (timer_at i s) = f ->
  (forall j, (j < i)%nat -> callback (timer_at j s) <> f) ->
  fst (tmTimerStartOnce D2 f s) = 0 /\
  delay (timer_at i (snd (tmTimerStartOnce D2 f s))) = D2 /\
  callback (timer_at i (snd (tmTimerStartOnce D2 f s))) = f /\
  (forall j, j <> i ->
     timer_at j (snd (tmTimerStartOnce D2 f s)) = timer_at j s) /\
  (active (timer_at i s) = 0 ->
   active (timer_at i (snd (tmTimerStartOnce D2 f s))) = 1 /\
   start_time (timer_at i (snd (tmTimerStartOnce D2 f s))) = millis s) /\
  (active (timer_at i s) <> 0 ->
   active (timer_at i (snd (tmTimerStartOnce D2 f s))) = active (timer_at i s) /\
   start_time (timer_at i (snd (tmTimerStartOnce D2 f s))) =
     start_time (timer_at i s) /\
   (f <> NULL -> sole_timer i f s -> u32 (millis s) -> D2 < 2 ^ 32 ->
    (forall ops,
       wrap32 (millis s - start_time (timer_at i s)) + Z.of_nat (ticks ops) = D2 ->
       let w := run run_cb sIdleTask
                  (mkWorld (snd (tmTimerStartOnce D2 f s)) lg) ops in
       millis (st w) = wrap32 (start_time (timer_at i s) + D2) /\
       occurrences (FireTimer f) (log w) = occurrences (FireTimer f) lg /\
       occurrences (FireTimer f) (log (tmTick run_cb w)) =
         S (occurrences (FireTimer f) lg) /\
       active (timer_at i (st (tmTick run_cb w))) = 0) /\
    (D2 <= wrap32 (millis s - start_time (timer_at i s)) ->
     occurrences (FireTimer f)
       (log (tmTick run_cb (mkWorld (snd (tmTimerStartOnce D2 f s)) lg))) =
       S (occurrences (FireTimer f) lg)))).
Proof.
  intros [_ Hlen] Hi Hheld Hfirst.
  rewrite (tmTimerStartOnce_held D2 f s i Hi Hheld Hfirst). cbn [fst snd].
  set (t := timer_at i s).
  split; [done|].
  destruct (Z.eq_dec (active t) 0) as [Hz|Hnz].
  - rewrite (proj2 (truthy_false (active t)) Hz).
    rewrite timer_at_set_timer_eq by lia. cbn [active start_time delay callback].
    split; [done|]. split; [done|]. split.
    { intros j Hj. by rewrite timer_at_set_timer_ne. }
    split; [done|]. intros Hact. by destruct Hact.
  - rewrite (proj2 (truthy_true (active t)) Hnz).
    rewrite timer_at_set_timer_eq by lia. cbn [active start_time delay callback].
    split; [done|]. split; [done|]. split.
    { intros j Hj. by rewrite timer_at_set_timer_ne. }
    split; [done|]. intros _. split; [done|]. split; [done|].
    intros Hf Hsole Hm HD2.
    assert (exists w1,
      w1 = mkWorld (set_timer i (mkTimer (active t) (start_time t) D2 f) s) lg)
      as (w1 & Hw1) by eauto.
    rewrite <- Hw1.
    assert (timers (st w1) !! i = Some (mkTimer (active t) (start_time t) D2 f))
      as Hs'.
    { rewrite Hw1, st_mk, timers_set_timer. apply list_lookup_insert_eq. lia. }
    assert (sole_timer i f (st w1)) as Hsole'.
    { rewrite Hw1, st_mk. apply sole_timer_set_timer; done. }
    assert (millis (st w1) = millis s) as Hm1.
    { by rewrite Hw1, st_mk, millis_set_timer. }
    assert (occurrences (FireTimer f) (log w1) = occurrences (FireTimer f) lg)
      as Hlg.
    { by rewrite Hw1, log_mk. }
    clear Hw1.
    split.
    + intros ops He. cbv zeta.
      destruct (run_timer_pending ops w1 (active t) (start_time t) D2 Hi Hf Hnz
                  ltac:(by rewrite Hm1) Hs' Hsole' ltac:(rewrite Hm1; lia))
        as (G1 & G2 & G3 & G4 & G5).
      rewrite Hm1 in G2, G3. rewrite Hlg in G5.
      destruct (tmTick_timer_fires (run run_cb sIdleTask w1 ops) (active t)
                  (start_time t) D2 Hi Hf Hnz G1 G4 ltac:(lia)) as (F1 & F2 & F3).
      rewrite G5 in F3.
      split; [|split; [done|split; [done|]]].
      * rewrite G3. unfold wrap32 in *.
        replace (millis s + Z.of_nat (ticks ops))
          with (millis s + D2 - (millis s - start_time t) mod 2 ^ 32) by lia.
        rewrite Zminus_mod_idemp_r. f_equal. lia.
      * by rewrite (timer_at_lookup _ _ _ F1).
    + intros Hle.
      destruct (tmTick_timer_fires w1 (active t) (start_time t) D2
                  Hi Hf Hnz Hs' Hsole' ltac:(by rewrite Hm1)) as (_ & _ & F3).
      by rewrite F3, Hlg.
Qed.

End OneShot.

(** ** The clock *)

Section Clock.

Variable run_cb : fptr -> State -> State.

Hypothesis cb_keeps_millis : forall g, keeps_millis (run_cb g).

Lemma timer_step_millis (j : nat) (x : World) :
  millis (st (timer_step run_cb j x)) = millis (st x).
Proof.
  unfold timer_step. destruct (expired _ _); [|done]. cbn [st].
  destruct (truthy _); cbn [call st]; [|done].
  by rewrite cb_keeps_millis.
Qed.

Lemma timer_loop_millis (n : nat) (w : World) :
  millis (st (for_loop (timer_step run_cb) 0 n w)) = millis (st w).
Proof.
  apply (for_loop_inv0 (fun _ x => millis (st x) = millis (st w))); [done|].
  intros j x _ Hx. by rewrite timer_step_millis.
Qed.

(** The expiry test of one iteration of the timer pass, with the clock
    the iteration reads given by name: the callback of the slot is called
    exactly when the slot is armed and its delay is at most that clock
    minus the start time, modulo 2^32; otherwise the iteration does
    nothing. *)
Lemma timer_step_test (j : nat) (x : World) (now : Z) :
  millis (st x) = now ->
  (active (timer_at j (st x)) <> 0 /\
   delay (timer_at j (st x)) <= wrap32 (now - start_time (timer_at j (st x))) ->
   log (timer_step run_cb j x) =
     log x ++ (if callback (timer_at j (st x)) =? 0 then []
               else [FireTimer (callback (timer_at j (st x)))])) /\
  (~ (active (timer_at j (st x)) <> 0 /\
      delay (timer_at j (st x)) <= wrap32 (now - start_time (timer_at j (st x)))) ->
   timer_step run_cb j x = x).
Proof.
  intros Hnow. unfold timer_step, expired. rewrite Hnow. split.
  - intros [Ha Hd]. rewrite (proj2 (truthy_true _) Ha).
    destruct (Z.leb_spec (delay (timer_at j (st x)))
                (wrap32 (now - start_time (timer_at j (st x))))); [|lia].
    cbn [andb st log]. rewrite callback_after_clear. unfold truthy.
    destruct (callback (timer_at j (st x)) =? 0); cbn [negb call log].
    + by rewrite app_nil_r.
    + done.
  - intros Hno.
    destruct (truthy (active (timer_at j (st x)))) eqn:Ea; [|done].
    destruct (Z.leb_spec (delay (timer_at j (st x)))
                (wrap32 (now - start_time (timer_at j (st x))))); [|done].
    exfalso. apply Hno. split; [by apply truthy_true | done].
Qed.

(** C8: a tick is the countdown pass, then the timer pass, then the write
    of the clock; the clock it writes is the clock it started with plus 1,
    modulo 2^32.  Before every iteration of the timer pass the clock still
    has the value it had when the tick started, and the expiry test of
    every iteration is made against that value: iteration [j] calls the
    callback of slot [j] exactly when the slot is armed and its delay is at
    most the start-of-tick clock minus its start time, modulo 2^32.  So a
    timer that callbacks leave alone is called by a tick exactly when its
    delay has elapsed on the clock the tick started with, the clock
    [tmTimerStartOnce] recorded. *)
Theorem tmTick_clock_last (w : World) :
  millis (st (tmTick run_cb w)) = wrap32 (millis (st w) + 1) /\
  millis (tick_tasks (st w)) = millis (st w) /\
  (forall n, (n <= MAX_TIMERS)%nat ->
     millis (st (for_loop (timer_step run_cb) 0 n
                   (mkWorld (tick_tasks (st w)) (log w)))) = millis (st w)) /\
  tmTick run_cb w =
    mkWorld
      (set_millis (wrap32 (millis (st w) + 1))
         (st (tmTimerProcess run_cb (mkWorld (tick_tasks (st w)) (log w)))))
      (log (tmTimerProcess run_cb (mkWorld (tick_tasks (st w)) (log w)))) /\
  (forall j x, (j < MAX_TIMERS)%nat ->
     x = for_loop (timer_step run_cb) 0 j (mkWorld (tick_tasks (st w)) (log w)) ->
     (active (timer_at j (st x)) <> 0 /\
      delay (timer_at j (st x)) <=
        wrap32 (millis (st w) - start_time (timer_at j (st x))) ->
      log (timer_step run_cb j x) =
        log x ++ (if callback (timer_at j (st x)) =? 0 then []
                  else [FireTimer (callback (timer_at j (st x)))])) /\
     (~ (active (timer_at j (st x)) <> 0 /\
         delay (timer_at j (st x)) <=
           wrap32 (millis (st w) - start_time (timer_at j (st x)))) ->
      timer_step run_cb j x = x)) /\
  (forall i f t,
     (forall g, keeps_timer i f (run_cb g)) ->
     (i < MAX_TIMERS)%nat -> f <> NULL ->
     timers (st w) !! i = Some t -> callback t = f ->
     sole_timer i f (st w) ->
     (active t <> 0 /\ delay t <= wrap32 (millis (st w) - start_time t) ->
      occurrences (FireTimer f) (log (tmTick run_cb w)) =
        S (occurrences (FireTimer f) (log w)) /\
      timers (st (tmTick run_cb w)) !! i =
        Some (mkTimer 0 (start_time t) (delay t) f)) /\
     (~ (active t <> 0 /\ delay t <= wrap32 (millis (st w) - start_time t)) ->
      occurrences (FireTimer f) (log (tmTick run_cb w)) =
        occurrences (FireTimer f) (log w) /\
      timers (st (tmTick run_cb w)) !! i = Some t)).
Proof.
  destruct (tick_tasks_frame (st w)) as (_ & Hm & _ & _).
  assert (forall n,
    millis (st (for_loop (timer_step run_cb) 0 n
                  (mkWorld (tick_tasks (st w)) (log w)))) = millis (st w))
    as Hloop.
  { intros n. by rewrite timer_loop_millis, st_mk. }
  assert (millis (st (tmTimerProcess run_cb
                        (mkWorld (tick_tasks (st w)) (log w)))) = millis (st w))
    as Hproc.
  { unfold tmTimerProcess. apply Hloop. }
  split; [|split; [done|split; [|split; [|split]]]].
  - by rewrite tmTick_eq, st_mk, millis_set_millis, Hproc.
  - intros n _. apply Hloop.
  - by rewrite tmTick_eq, Hproc.
  - intros j x Hj ->. apply timer_step_test. apply Hloop.
  - intros i f t Hkeep Hi Hf Ht Hcb Hsole.
    destruct (tmTick_timer run_cb i f Hkeep t w Hi Hf Ht Hcb Hsole)
      as (H1 & _ & _ & H4).
    unfold fire_timer in H1. unfold expired in H1, H4. split.
    + intros [Ha Hd]. rewrite (proj2 (truthy_true _) Ha) in H1, H4.
      destruct (Z.leb_spec (delay t) (wrap32 (millis (st w) - start_time t)));
        [|lia].
      cbn [andb] in H1, H4. rewrite H1, H4, Hcb. split; [lia | done].
    + intros Hno.
      destruct (truthy (active t)) eqn:Ea;
        [|cbn [andb] in H1, H4; rewrite H1, H4; split; [lia | done]].
      destruct (Z.leb_spec (delay t) (wrap32 (millis (st w) - start_time t)));
        [|cbn [andb] in H1, H4; rewrite H1, H4; split; [lia | done]].
      exfalso. apply Hno. split; [by apply truthy_true | done].
Qed.

End Clock.

(** ** The idle hook *)

Section IdleHook.

Variable run_cb : fptr -> State -> State.
Variable sIdleTask : State -> State.

Lemma nothing_ready_spec (s : State) :
  nothing_ready s = true <->
  forall i, (i < MAX_TASKS)%nat -> task_ready i s = false.
Proof.
  unfold nothing_ready. rewrite forallb_forall. split.
  - intros H i Hi. apply negb_true_iff, H, in_seq. lia.
  - intros H i Hi%in_seq. apply negb_true_iff, H. lia.
Qed.

Lemma update_step_skip (j : nat) (x : World) :
  task_ready j (st x) = false -> update_step run_cb j x = x.
Proof. intros H. unfold update_step. fold (task_ready j (st x)). by rewrite H. Qed.

(** With nothing to run, the pass of [tmUpdate] changes nothing, and the
    idle hook is called exactly when the static flag is clear. *)
Lemma tmUpdate_nothing_ready (w : World) :
  nothing_ready (st w) = true ->
  tmUpdate run_cb sIdleTask w =
  if truthy (taskExecuted (st w)) then w else call RunIdle sIdleTask w.
Proof.
  intros Hn. pose proof (proj1 (nothing_ready_spec (st w)) Hn) as Hno.
  assert (for_loop (update_step run_cb) 0 MAX_TASKS w = w) as Hloop.
  { apply (for_loop_inv0 (fun _ x => x = w)); [done|].
    intros j x Hj ->. apply update_step_skip. by apply Hno. }
  by rewrite tmUpdate_eq, Hloop.
Qed.

End IdleHook.

(** C1 fails on the code once a task has run: the flag [taskExecuted] of
    [tmUpdate] is static and is never cleared.  On the initial state
    [tmUpdate] calls the idle hook.  Here a first [tmUpdate] runs the one
    flagged task; the second starts with no task flagged, and does not call
    the idle hook: it leaves state and log as they are. *)
Theorem tmUpdate_idle_starved :
  log (tmUpdate quiet_cb quiet_idle (mkWorld init_state [])) = [RunIdle] /\
  nothing_ready (st flagged_world) = false /\
  log (tmUpdate quiet_cb quiet_idle flagged_world) = [RunTask vTaskLed] /\
  nothing_ready (st (tmUpdate quiet_cb quiet_idle flagged_world)) = true /\
  tmUpdate quiet_cb quiet_idle (tmUpdate quiet_cb quiet_idle flagged_world) =
    tmUpdate quiet_cb quiet_idle flagged_world /\
  occurrences RunIdle
    (log (tmUpdate quiet_cb quiet_idle
            (tmUpdate quiet_cb quiet_idle flagged_world))) = 0%nat.
Proof. repeat split; vm_compute; reflexivity. Qed.

(** ** The scenarios *)

Lemma tmTimerStartOnce_millis d g s : millis (snd (tmTimerStartOnce d g s)) = millis s.
Proof.
  unfold tmTimerStartOnce.
  destruct (first_index _ 0 MAX_TIMERS); [done|].
  by destruct (first_index _ 0 MAX_TIMERS).
Qed.

Lemma arming_cb_keeps_millis g : keeps_millis (arming_cb g).
Proof.
  intros s. unfold arming_cb. destruct (g =? vTaskLedFlash); [|done].
  by rewrite tmTimerStartOnce_millis.
Qed.

Lemma retiming_cb_keeps_timer i f g : keeps_timer i f (retiming_cb g).
Proof.
  intros s. unfold retiming_cb. destruct (g =? vTaskKey); [|done].
  destruct (tmUpdateTask_timers vTaskLed 200 s) as [Ht Hm].
  split; [by rewrite Ht|]. split; [done|].
  by apply sole_timer_ext.
Qed.

Lemma quiet_idle_keeps_timer i f : keeps_timer i f quiet_idle.
Proof. intros s. done. Qed.

Lemma quiet_idle_keeps_task i : keeps_task i quiet_idle.
Proof. intros s. done. Qed.

Lemma wf_demo_state : wf demo_state.
Proof. split; reflexivity. Qed.

Lemma demo_state_no_timer (f : fptr) :
  f <> NULL ->
  forall j, (j < MAX_TIMERS)%nat -> callback (timer_at j demo_state) <> f.
Proof.
  intros Hf j Hj. do 5 (destruct j as [|j]; [by intros <-|]).
  unfold MAX_TIMERS in Hj. lia.
Qed.

(** [vTaskLedFlash] every 3 ms, arming a timer whenever it runs: flagged
    by the third tick, not by the second. *)
Lemma periodic_task_firing_witness :
  isReady (task_at 2
    (st (run arming_cb quiet_idle
           (mkWorld (snd (tmAddTask vTaskLedFlash 3 demo_state)) [])
           [Tick; Update; Tick]))) = 0 /\
  isReady (task_at 2
    (st (tmTick arming_cb
           (run arming_cb quiet_idle
              (mkWorld (snd (tmAddTask vTaskLedFlash 3 demo_state)) [])
              [Tick; Update; Tick])))) = 1 /\
  isReady (task_at 2
    (st (run arming_cb quiet_idle
           (tmTick arming_cb
              (run arming_cb quiet_idle
                 (mkWorld (snd (tmAddTask vTaskLedFlash 3 demo_state)) [])
                 [Tick; Update; Tick]))
           (replicate 2 Tick)))) = 1.
Proof.
  destruct (periodic_task_firing arming_cb quiet_idle 2
              (arming_cb_keeps_task 2) (quiet_idle_keeps_task 2)
              vTaskLedFlash 3 demo_state
              (snd (tmAddTask vTaskLedFlash 3 demo_state)) [])
    as [Hbefore Hat].
  - exact wf_demo_state.
  - discriminate.
  - lia.
  - vm_compute. reflexivity.
  - split; [|split].
    + apply Hbefore. vm_compute. reflexivity.
    + exact (proj1 (Hat [Tick; Update; Tick] eq_refl)).
    + destruct (Hat [Tick; Update; Tick] eq_refl)
        as (_ & _ & _ & _ & _ & Hstays & _).
      exact (proj1 (Hstays 2%nat)).
Defined.

Lemma zero_period_never_ready_witness :
  isReady (task_at 2
    (st (run arming_cb quiet_idle
           (mkWorld (snd (tmAddTask vTaskLedFlash 0 demo_state)) [])
           [Tick; Tick; Update; Tick]))) = 0.
Proof.
  refine (proj1 (zero_period_never_ready arming_cb quiet_idle 2
           (arming_cb_keeps_task 2) (quiet_idle_keeps_task 2)
           vTaskLedFlash demo_state
           (snd (tmAddTask vTaskLedFlash 0 demo_state)) [] wf_demo_state _
           [Tick; Tick; Update; Tick])).
  vm_compute. reflexivity.
Defined.

(** A timer armed for 2 ms: quiet for two ticks, called in the third. *)
Lemma one_shot_fires_once_witness :
  occurrences (FireTimer vTaskLedOff)
    (log (run retiming_cb quiet_idle
            (mkWorld (snd (tmTimerStartOnce 2 vTaskLedOff demo_state)) [])
            [Tick; Update; Tick])) = 0%nat /\
  occurrences (FireTimer vTaskLedOff)
    (log (tmTick retiming_cb
            (run retiming_cb quiet_idle
               (mkWorld (snd (tmTimerStartOnce 2 vTaskLedOff demo_state)) [])
               [Tick; Update; Tick]))) = 1%nat.
Proof.
  destruct (one_shot_fires_once retiming_cb quiet_idle 0 vTaskLedOff
              (retiming_cb_keeps_timer 0 vTaskLedOff)
              (quiet_idle_keeps_timer 0 vTaskLedOff)
              2 demo_state [])
    as (_ & Hquiet & Hfire).
  - exact wf_demo_state.
  - discriminate.
  - lia.
  - vm_compute. split; [discriminate | reflexivity].
  - apply demo_state_no_timer. discriminate.
  - unfold MAX_TIMERS. lia.
  - reflexivity.
  - intros j Hj. lia.
  - split.
    + refine (proj1 (Hquiet [Tick; Update; Tick] _)). vm_compute. discriminate.
    + exact (proj1 (Hfire [Tick; Update; Tick] eq_refl)).
Defined.

(** C2 as the claim words it fails: after [StartOnce(1, f)] and one tick
    the callback has not been called and the slot is still armed; it is
    the second tick that calls it. *)
Lemma one_shot_D_ticks_counterexample :
  ~ (occurrences (FireTimer vTaskLedOff)
       (log (run quiet_cb quiet_idle
               (mkWorld (snd (tmTimerStartOnce 1 vTaskLedOff init_state)) [])
               [Tick])) = 1%nat /\
     active (timer_at 0
       (st (run quiet_cb quiet_idle
              (mkWorld (snd (tmTimerStartOnce 1 vTaskLedOff init_state)) [])
              [Tick]))) = 0 /\
     occurrences (FireTimer vTaskLedOff)
       (log (run quiet_cb quiet_idle
               (mkWorld (snd (tmTimerStartOnce 1 vTaskLedOff init_state)) [])
               [Tick; Tick])) =
     occurrences (FireTimer vTaskLedOff)
       (log (run quiet_cb quiet_idle
               (mkWorld (snd (tmTimerStartOnce 1 vTaskLedOff init_state)) [])
               [Tick]))).
Proof. vm_compute. intros [H _]. discriminate. Qed.

Lemma wf_armed_world : wf (st armed_world).
Proof. split; vm_compute; reflexivity. Qed.

Lemma armed_world_sole : sole_timer 0 vTaskLedOff (st armed_world).
Proof.
  intros j Hj Hji. destruct j as [|j]; [by destruct Hji|]. clear Hji.
  do 4 (destruct j as [|j]; [vm_compute; discriminate|]).
  unfold MAX_TIMERS in Hj. lia.
Qed.

(** Armed at clock 0 for 10 ms, re-armed at clock 3 for 5 ms: the start
    time stays 0, the tick that starts with the clock at 5 calls the
    callback. *)
Lemma rearm_keeps_start_witness :
  start_time (timer_at 0 (snd (tmTimerStartOnce 5 vTaskLedOff (st armed_world)))) = 0 /\
  millis (st (run retiming_cb quiet_idle
                (mkWorld (snd (tmTimerStartOnce 5 vTaskLedOff (st armed_world))) [])
                [Tick; Update; Tick])) = 5 /\
  occurrences (FireTimer vTaskLedOff)
    (log (tmTick retiming_cb
            (run retiming_cb quiet_idle
               (mkWorld (snd (tmTimerStartOnce 5 vTaskLedOff (st armed_world))) [])
               [Tick; Update; Tick]))) = 1%nat.
Proof.
  destruct (rearm_keeps_start retiming_cb quiet_idle 0 vTaskLedOff
              (retiming_cb_keeps_timer 0 vTaskLedOff)
              (quiet_idle_keeps_timer 0 vTaskLedOff)
              5 (st armed_world) [])
    as (_ & _ & _ & _ & _ & Harmed).
  - exact wf_armed_world.
  - unfold MAX_TIMERS. lia.
  - vm_compute. reflexivity.
  - intros j Hj. lia.
  - destruct Harmed as (_ & Hstart & Hfire).
    + vm_compute. discriminate.
    + destruct Hfire as [Hat _].
      * discriminate.
      * exact armed_world_sole.
      * vm_compute. split; [discriminate | reflexivity].
      * lia.
      * destruct (Hat [Tick; Update; Tick]) as (Hm & _ & Hcall & _).
        -- vm_compute. reflexivity.
        -- split; [|split; [exact Hm | exact Hcall]].
           rewrite Hstart. vm_compute. reflexivity.
Defined.

Lemma retiming_cb_keeps_millis g : keeps_millis (retiming_cb g).
Proof. intros s. apply (retiming_cb_keeps_timer 0 0 g s). Qed.

(** The clock wraps from [2^32 - 1] to 0; a timer armed for 1 ms is not
    called by the tick that follows the arming, which still reads the
    clock of the arming. *)
Lemma tmTick_clock_last_witness :
  millis (st (tmTick arming_cb (mkWorld (set_millis (2 ^ 32 - 1) demo_state) []))) = 0 /\
  occurrences (FireTimer vTaskLedOff)
    (log (tmTick retiming_cb
            (mkWorld (snd (tmTimerStartOnce 1 vTaskLedOff demo_state)) []))) = 0%nat.
Proof.
  split.
  - rewrite (proj1 (tmTick_clock_last arming_cb arming_cb_keeps_millis
                      (mkWorld (set_millis (2 ^ 32 - 1) demo_state) []))).
    vm_compute. reflexivity.
  - destruct (tmTick_clock_last retiming_cb retiming_cb_keeps_millis
                (mkWorld (snd (tmTimerStartOnce 1 vTaskLedOff demo_state)) []))
      as (_ & _ & _ & _ & _ & Hslot).
    destruct (Hslot 0%nat vTaskLedOff (mkTimer 1 0 1 vTaskLedOff)
                (retiming_cb_keeps_timer 0 vTaskLedOff)) as [_ Hquiet].
    + unfold MAX_TIMERS. lia.
    + discriminate.
    + vm_compute. reflexivity.
    + reflexivity.
    + intros j Hj Hji. destruct j as [|j]; [by destruct Hji|]. clear Hji.
      do 4 (destruct j as [|j]; [vm_compute; discriminate|]).
      unfold MAX_TIMERS in Hj. lia.
    + destruct Hquiet as [Hcount _].
      * vm_compute. intros [_ Hle]. by apply Hle.
      * rewrite Hcount. vm_compute. reflexivity.
Defined.

(** * Further properties of the library *)

(** ** Deleting and re-adding tasks *)

Lemma tmDeleteTask_found f s i :
  first_index (fun j => taskFunc (task_at j s) =? f) 0 MAX_TASKS = Some i ->
  tmDeleteTask f s =
  (0, set_task i (mkTask 0 (period_ms (task_at i s)) (delay_ms (task_at i s))
                         (isReady (task_at i s))) s).
Proof. intros E. unfold tmDeleteTask. by rewrite E. Qed.

Lemma tmDeleteTask_missing f s :
  first_index (fun j => taskFunc (task_at j s) =? f) 0 MAX_TASKS = None ->
  tmDeleteTask f s = (-1, s).
Proof. intros E. unfold tmDeleteTask. by rewrite E. Qed.

(** X1: [tmDeleteTask] frees the first slot that holds the function pointer
    and touches nothing else: the slot keeps its period, counter and flag, the
    other slots, the timers, the clock and the flag of [tmUpdate] are as
    before.  A function pointer that no slot holds gives -1 and the state
    unchanged; so does a second delete of a pointer that one slot held. *)
Theorem tmDeleteTask_frees_first (s : State) (f : fptr) :
  wf s ->
  ((forall j, (j < MAX_TASKS)%nat -> taskFunc (task_at j s) <> f) ->
   tmDeleteTask f s = (-1, s)) /\
  (forall i, (i < MAX_TASKS)%nat -> taskFunc (task_at i s) = f ->
     (forall j, (j < i)%nat -> taskFunc (task_at j s) <> f) ->
     fst (tmDeleteTask f s) = 0 /\
     task_at i (snd (tmDeleteTask f s)) =
       mkTask NULL (period_ms (task_at i s)) (delay_ms (task_at i s))
              (isReady (task_at i s)) /\
     (forall j, j <> i ->
        task_at j (snd (tmDeleteTask f s)) = task_at j s) /\
     timers (snd (tmDeleteTask f s)) = timers s /\
     millis (snd (tmDeleteTask f s)) = millis s /\
     taskExecuted (snd (tmDeleteTask f s)) = taskExecuted s /\
     (f <> NULL ->
      (forall j, (j < MAX_TASKS)%nat -> j <> i -> taskFunc (task_at j s) <> f) ->
      tmDeleteTask f (snd (tmDeleteTask f s)) = (-1, snd (tmDeleteTask f s)))).
Proof.
  intros [Hlen _]. split.
  - intros Hnone. by apply tmDeleteTask_missing, taskFunc_eqb_none.
  - intros i Hi Hf Hfirst.
    rewrite (tmDeleteTask_found f s i)
      by (by apply taskFunc_eqb_first).
    cbn [fst snd].
    split; [done|]. split; [by rewrite task_at_set_task_eq by lia|].
    split; [by intros j Hj; rewrite task_at_set_task_ne|].
    split; [done|]. split; [done|]. split; [done|].
    intros Hnn Hsole. apply tmDeleteTask_missing, taskFunc_eqb_none.
    intros j Hj. destruct (Nat.eq_dec j i) as [->|Hne].
    + rewrite task_at_set_task_eq by lia. cbn [taskFunc]. by intros <-.
    + rewrite task_at_set_task_ne by done. by apply Hsole.
Qed.

Lemma tmDeleteTask_frees_first_witness :
  tmDeleteTask vTaskLed demo_state =
    (0, set_task 0 (mkTask NULL 500 500 0) demo_state) /\
  fst (tmDeleteTask vTaskLed (snd (tmDeleteTask vTaskLed demo_state))) = -1.
Proof.
  destruct (proj2 (tmDeleteTask_frees_first demo_state vTaskLed wf_demo_state)
              0%nat) as (_ & _ & _ & _ & _ & _ & Hagain).
  - unfold MAX_TASKS. lia.
  - reflexivity.
  - intros j Hj. lia.
  - split; [reflexivity|]. rewrite Hagain; [reflexivity | discriminate |].
    intros j Hj Hne. do 10 (destruct j as [|j]; [by vm_compute|]).
    unfold MAX_TASKS in Hj. lia.
Defined.

(** X2: after a delete, [tmAddTask] reuses the freed slot when every slot
    before it is occupied (as in a full table): it returns the index the
    deleted task had, and the new task starts with its flag clear, also
    when the deleted task was flagged. *)
Theorem tmAddTask_reuses_deleted (s : State) (f g : fptr) (p : Z) (i : nat) :
  wf s -> (i < MAX_TASKS)%nat -> f <> NULL ->
  taskFunc (task_at i s) = f ->
  (forall j, (j < i)%nat ->
     taskFunc (task_at j s) <> f /\ taskFunc (task_at j s) <> NULL) ->
  fst (tmAddTask g p (snd (tmDeleteTask f s))) = Z.of_nat i /\
  task_at i (snd (tmAddTask g p (snd (tmDeleteTask f s)))) = mkTask g p p 0 /\
  (forall j, j <> i ->
     task_at j (snd (tmAddTask g p (snd (tmDeleteTask f s)))) = task_at j s).
Proof.
  intros [Hlen Hlen'] Hi Hnn Hf Hbefore.
  rewrite (tmDeleteTask_found f s i).
  2:{ apply taskFunc_eqb_first. split; [done|]. split; [done|].
      intros j Hj. by apply Hbefore. }
  cbn [snd].
  rewrite (tmAddTask_found g p _ i).
  2:{ apply (proj2 (taskFunc_eqb_first 0 _ i)). split; [done|]. split.
      - by rewrite task_at_set_task_eq by lia.
      - intros j Hj. rewrite task_at_set_task_ne by lia. by apply Hbefore. }
  cbn [fst snd]. split; [done|]. split.
  - rewrite task_at_set_task_eq; [done|]. cbn [set_task tasks].
    rewrite length_insert. lia.
  - intros j Hj. by rewrite !task_at_set_task_ne.
Qed.

Lemma tmAddTask_reuses_deleted_witness :
  fst (tmAddTask vTaskLedFlash 3 (snd (tmDeleteTask vTaskLed demo_state))) = 0.
Proof.
  refine (proj1 (tmAddTask_reuses_deleted demo_state vTaskLed vTaskLedFlash 3 0
                   wf_demo_state _ _ _ _)).
  - unfold MAX_TASKS. lia.
  - discriminate.
  - reflexivity.
  - intros j Hj. lia.
Defined.

(** ** Schedules of ticks and updates *)

Lemma tmUpdateTask_found f p s i :
  first_index (fun j => taskFunc (task_at j s) =? f) 0 MAX_TASKS = Some i ->
  tmUpdateTask f p s =
  (0, set_task i (mkTask (taskFunc (task_at i s)) p p 0) s).
Proof. intros E. unfold tmUpdateTask. by rewrite E. Qed.

Lemma tick_task_countdown_ok (t : Task_s) :
  period_ms t < 2 ^ 32 -> countdown_ok t ->
  taskFunc (tick_task t) = taskFunc t /\
  period_ms (tick_task t) = period_ms t /\
  countdown_ok (tick_task t).
Proof.
  intros Hp [Hr Hpos]. unfold tick_task.
  destruct (truthy (taskFunc t)); [|done].
  destruct (Z.ltb_spec 0 (delay_ms t)); [|done].
  rewrite wrap32_small by (unfold u32; lia).
  destruct (Z.eqb_spec (delay_ms t - 1) 0); cbn [taskFunc period_ms];
    (split; [done|]; split; [done|]);
    unfold countdown_ok; cbn [delay_ms period_ms]; lia.
Qed.

Lemma consume_task_countdown_ok (t : Task_s) :
  countdown_ok t ->
  taskFunc (consume_task t) = taskFunc t /\
  period_ms (consume_task t) = period_ms t /\
  countdown_ok (consume_task t).
Proof. intros Hok. unfold consume_task. by destruct (_ && _). Qed.

Section Schedules.

Variable run_cb : fptr -> State -> State.
Variable sIdleTask : State -> State.

(** The loop of [tmUpdate] logs task calls only. *)
Lemma update_loop_log (e : event) (n : nat) (w : World) :
  (forall g, e <> RunTask g) ->
  occurrences e (log (for_loop (update_step run_cb) 0 n w)) =
  occurrences e (log w).
Proof.
  intros He.
  apply (for_loop_inv0
           (fun _ x => occurrences e (log x) = occurrences e (log w))); [done|].
  intros j x _ Hx. unfold update_step.
  destruct (_ && _); [|done]. cbn [call st log].
  by rewrite occurrences_snoc_ne.
Qed.

Lemma update_step_sets_flag (j : nat) (x : World) :
  task_ready j (st x) = true ->
  taskExecuted (st (update_step run_cb j x)) = 1.
Proof.
  intros H. unfold update_step. fold (task_ready j (st x)). by rewrite H.
Qed.

Lemma update_step_flag_stays (j : nat) (x : World) :
  taskExecuted (st x) = 1 ->
  taskExecuted (st (update_step run_cb j x)) = 1.
Proof. intros H. unfold update_step. by destruct (_ && _). Qed.

(** With no task flagged the loop of [tmUpdate] does nothing. *)
Lemma update_loop_skip (w : World) :
  nothing_ready (st w) = true ->
  for_loop (update_step run_cb) 0 MAX_TASKS w = w.
Proof.
  intros Hn. pose proof (proj1 (nothing_ready_spec (st w)) Hn) as Hno.
  apply (for_loop_inv0 (fun _ x => x = w)); [done|].
  intros j x Hj ->. apply update_step_skip. by apply Hno.
Qed.

(** With a task flagged the loop of [tmUpdate] ends with the static flag
    set. *)
Lemma update_loop_sets_flag (w : World) :
  nothing_ready (st w) = false ->
  taskExecuted (st (for_loop (update_step run_cb) 0 MAX_TASKS w)) = 1.
Proof.
  intros Hn.
  destruct (first_index (fun i => task_ready i (st w)) 0 MAX_TASKS)
    as [i0|] eqn:E.
  2:{ pose proof (proj1 (first_index_None _ _ _) E) as Hnone.
      rewrite (proj2 (nothing_ready_spec (st w))) in Hn; [discriminate|].
      intros i Hi. apply Hnone. lia. }
  apply first_index_Some in E as (Hi0 & Hready & Hfirst).
  pose proof (for_loop_inv0 (fun j x =>
    ((j <= i0)%nat -> x = w) /\
    ((i0 < j)%nat -> taskExecuted (st x) = 1))
    (update_step run_cb) MAX_TASKS w) as Hinv.
  cbv beta in Hinv. apply Hinv; [| |lia].
  - split; [done | lia].
  - intros j x Hj [Hle Hgt].
    destruct (Nat.lt_trichotomy j i0) as [Hlt|[->|Hlt]].
    + split; [|lia]. intros _. rewrite (Hle ltac:(lia)).
      apply update_step_skip, Hfirst. lia.
    + split; [lia|]. intros _. rewrite (Hle ltac:(lia)).
      by apply update_step_sets_flag.
    + split; [lia|]. intros _. apply update_step_flag_stays, Hgt. lia.
Qed.

(** X3: what [tmUpdate] does about the idle hook.  With no task flagged it
    calls the idle hook and nothing else when the static flag is clear,
    and does nothing at all when the flag is set; with a task flagged it
    does not call the idle hook and leaves the flag set. *)
Theorem tmUpdate_idle_rule (w : World) :
  (nothing_ready (st w) = true -> taskExecuted (st w) = 0 ->
   tmUpdate run_cb sIdleTask w = call RunIdle sIdleTask w) /\
  (nothing_ready (st w) = true -> taskExecuted (st w) <> 0 ->
   tmUpdate run_cb sIdleTask w = w) /\
  (nothing_ready (st w) = false ->
   occurrences RunIdle (log (tmUpdate run_cb sIdleTask w)) =
     occurrences RunIdle (log w) /\
   taskExecuted (st (tmUpdate run_cb sIdleTask w)) = 1).
Proof.
  split; [|split].
  - intros Hn Hz. rewrite tmUpdate_eq, (update_loop_skip w Hn).
    by rewrite (proj2 (truthy_false _) Hz).
  - intros Hn Hnz. rewrite tmUpdate_eq, (update_loop_skip w Hn).
    by rewrite (proj2 (truthy_true _) Hnz).
  - intros Hn. rewrite tmUpdate_eq, (update_loop_sets_flag w Hn).
    cbn [truthy Z.eqb negb].
    split; [|by apply update_loop_sets_flag]. by apply update_loop_log.
Qed.

(** *** One task slot under a schedule *)

Variable i : nat.

Hypothesis cb_keeps : forall g, keeps_task i (run_cb g).
Hypothesis idle_keeps : keeps_task i sIdleTask.

(** X4: under any schedule a task slot that callbacks leave alone keeps
    its function pointer and its period, and its counter stays within the
    period, above 0 for a period above 0. *)
Theorem run_keeps_countdown (ops : list op) :
  forall (w : World) (t : Task_s),
    (i < MAX_TASKS)%nat ->
    tasks (st w) !! i = Some t ->
    period_ms t < 2 ^ 32 -> countdown_ok t ->
    exists t',
      tasks (st (run run_cb sIdleTask w ops)) !! i = Some t' /\
      taskFunc t' = taskFunc t /\ period_ms t' = period_ms t /\
      countdown_ok t'.
Proof.
  induction ops as [|o ops IH]; intros w t Hi Hs Hp Hok.
  - exists t. by rewrite run_nil.
  - destruct o.
    + rewrite run_Tick.
      destruct (tick_task_countdown_ok t Hp Hok) as (Hf & Hper & Hok').
      destruct (IH (tmTick run_cb w) (tick_task t) Hi
                  (tmTick_task run_cb i t w cb_keeps Hi Hs)
                  ltac:(by rewrite Hper) Hok') as (t' & G1 & G2 & G3 & G4).
      exists t'. rewrite G1, G2, G3, Hf, Hper. done.
    + rewrite run_Update.
      destruct (consume_task_countdown_ok t Hok) as (Hf & Hper & Hok').
      destruct (tmUpdate_task run_cb sIdleTask i t w cb_keeps idle_keeps Hi Hs)
        as [Hs' _].
      destruct (IH (tmUpdate run_cb sIdleTask w) (consume_task t) Hi Hs'
                  ltac:(by rewrite Hper) Hok') as (t' & G1 & G2 & G3 & G4).
      exists t'. rewrite G1, G2, G3, Hf, Hper. done.
Qed.

(** X5: [tmUpdateTask] restarts the countdown: whatever the counter and the
    flag of the task were, after the call the task is not flagged during
    the next [p - 1] ticks and is flagged by the [p]-th. *)
Theorem tmUpdateTask_restarts_countdown (f : fptr) (p : Z) (s0 : State)
    (lg : list event) :
  wf s0 -> f <> NULL -> 1 <= p < 2 ^ 32 ->
  (i < MAX_TASKS)%nat -> taskFunc (task_at i s0) = f ->
  (forall j, (j < i)%nat -> taskFunc (task_at j s0) <> f) ->
  fst (tmUpdateTask f p s0) = 0 /\
  (forall ops, Z.of_nat (ticks ops) < p ->
     isReady (task_at i
       (st (run run_cb sIdleTask (mkWorld (snd (tmUpdateTask f p s0)) lg) ops))) = 0) /\
  (forall ops, Z.of_nat (ticks ops) = p - 1 ->
     isReady (task_at i
       (st (tmTick run_cb
              (run run_cb sIdleTask
                 (mkWorld (snd (tmUpdateTask f p s0)) lg) ops)))) = 1).
Proof.
  intros [Hlen _] Hf Hp Hi Hheld Hfirst.
  rewrite (tmUpdateTask_found f p s0 i) by (by apply taskFunc_eqb_first).
  cbn [fst snd]. rewrite Hheld.
  assert (tasks (st (mkWorld (set_task i (mkTask f p p 0) s0) lg)) !! i =
          Some (mkTask f p p 0)) as Hs1.
  { rewrite st_mk, tasks_set_task. apply list_lookup_insert_eq. lia. }
  revert Hs1. generalize (mkWorld (set_task i (mkTask f p p 0) s0) lg).
  intros w1 Hs1.
  split; [done|]. split.
  - intros ops Ht.
    destruct (run_task_countdown run_cb sIdleTask i cb_keeps idle_keeps ops w1
                f p p 0 Hi Hf Ht ltac:(lia) Hs1) as (r' & Hr' & Hz).
    rewrite (task_at_lookup _ _ _ Hr'). cbn [isReady]. auto.
  - intros ops Ht.
    by rewrite (task_at_lookup _ _ _
                  (run_then_tick_fires run_cb sIdleTask i cb_keeps idle_keeps
                     ops w1 f p 0 Hi Hf Hp Ht Hs1)).
Qed.

End Schedules.

Section ClockCount.

Variable run_cb : fptr -> State -> State.
Variable sIdleTask : State -> State.

Hypothesis cb_keeps_millis : forall g, keeps_millis (run_cb g).
Hypothesis idle_keeps_millis : keeps_millis sIdleTask.

Lemma tmUpdate_millis (w : World) :
  millis (st (tmUpdate run_cb sIdleTask w)) = millis (st w).
Proof.
  apply (tmUpdate_preserves run_cb sIdleTask (fun s => millis s = millis (st w)));
    try done.
  - intros g s Hs. by rewrite cb_keeps_millis.
  - intros s Hs. by rewrite idle_keeps_millis.
Qed.

Lemma tmTick_millis (w : World) :
  millis (st (tmTick run_cb w)) = wrap32 (millis (st w) + 1).
Proof.
  rewrite tmTick_eq, st_mk, millis_set_millis. unfold tmTimerProcess.
  rewrite (timer_loop_millis run_cb cb_keeps_millis), st_mk.
  destruct (tick_tasks_frame (st w)) as (_ & -> & _). done.
Qed.

(** X6: the clock counts the ticks: after any schedule [get_millis] is the
    clock before it plus the number of [tmTick] calls, modulo 2^32, and in
    the range of [uint32_t]; calls of [tmUpdate] do not move it. *)
Theorem get_millis_counts_ticks (ops : list op) :
  forall w : World,
    u32 (millis (st w)) ->
    get_millis (st (run run_cb sIdleTask w ops)) =
      wrap32 (millis (st w) + Z.of_nat (ticks ops)) /\
    u32 (get_millis (st (run run_cb sIdleTask w ops))).
Proof.
  unfold get_millis.
  induction ops as [|o ops IH]; intros w Hm.
  - rewrite run_nil. cbn [ticks Z.of_nat]. rewrite Z.add_0_r.
    by rewrite wrap32_small.
  - destruct o; cbn [ticks].
    + rewrite run_Tick.
      pose proof (tmTick_millis w) as Hm1.
      destruct (IH (tmTick run_cb w)) as [G1 G2].
      * rewrite Hm1. apply wrap32_range.
      * split; [|done]. rewrite G1, Hm1. unfold wrap32.
        rewrite Zplus_mod_idemp_l. f_equal. lia.
    + rewrite run_Update.
      destruct (IH (tmUpdate run_cb sIdleTask w)) as [G1 G2].
      * by rewrite tmUpdate_millis.
      * split; [|done]. by rewrite G1, tmUpdate_millis.
Qed.

End ClockCount.

(** ** The pass of [tmUpdate] as a whole *)

Lemma ready_calls_snoc (s : State) (n lo : nat) :
  ready_calls s lo (S n) =
  ready_calls s lo n ++
  (if task_ready (lo + n) s then [RunTask (taskFunc (task_at (lo + n) s))]
   else []).
Proof.
  revert lo. induction n as [|n IH]; intros lo.
  - cbn [ready_calls]. by rewrite Nat.add_0_r, app_nil_r.
  - change (ready_calls s lo (S (S n)))
      with ((if task_ready lo s then [RunTask (taskFunc (task_at lo s))] else [])
            ++ ready_calls s (S lo) (S n)).
    rewrite IH. cbn [ready_calls]. rewrite Nat.add_succ_r. cbn [Nat.add].
    by rewrite app_assoc.
Qed.

Lemma taskFunc_after_clear j s :
  taskFunc (task_at j
    (set_task j (mkTask (taskFunc (task_at j s)) (period_ms (task_at j s))
                        (delay_ms (task_at j s)) 0) s)) =
  taskFunc (task_at j s).
Proof.
  destruct (Nat.lt_ge_cases j (length (tasks s))) as [Hlt|Hge].
  - by rewrite task_at_set_task_eq.
  - unfold task_at, set_task. cbn [tasks]. by rewrite list_insert_ge.
Qed.

Lemma consume_task_not_ready (t : Task_s) :
  truthy (taskFunc (consume_task t)) && truthy (isReady (consume_task t)) = false.
Proof.
  unfold consume_task.
  destruct (truthy (taskFunc t) && truthy (isReady t)) eqn:E; [|exact E].
  cbn [taskFunc isReady]. apply andb_false_r.
Qed.

Section UpdatePass.

Variable run_cb : fptr -> State -> State.
Variable sIdleTask : State -> State.

Hypothesis cb_keeps : forall g, keeps_tasks (run_cb g).
Hypothesis idle_keeps : keeps_tasks sIdleTask.

(** One iteration of the loop of [tmUpdate] on a table that callbacks do
    not change. *)
Lemma update_step_pass (j : nat) (x : World) :
  (j < length (tasks (st x)))%nat ->
  tasks (st (update_step run_cb j x)) =
    <[j := consume_task (task_at j (st x))]> (tasks (st x)) /\
  log (update_step run_cb j x) =
    log x ++ (if task_ready j (st x)
              then [RunTask (taskFunc (task_at j (st x)))] else []).
Proof.
  intros Hj. unfold update_step, consume_task.
  fold (task_ready j (st x)). unfold task_ready at 3.
  destruct (task_ready j (st x)) eqn:E.
  - unfold task_ready in E. rewrite E. cbn [call st log].
    rewrite taskFunc_after_clear, tasks_set_taskExecuted, cb_keeps.
    by rewrite tasks_set_task.
  - unfold task_ready in E. rewrite E. rewrite app_nil_r. split; [|done].
    symmetry. apply list_insert_id. unfold task_at.
    by apply list_lookup_lookup_total_lt.
Qed.

(** X7: when callbacks do not change the task table, one [tmUpdate] calls
    every task that was flagged when it started, once each and in table
    order, and then the idle hook if nothing was flagged and the static
    flag is clear; afterwards no task is flagged, and counters, periods and
    function pointers are as before. *)
Theorem tmUpdate_runs_flagged_in_order (w : World) :
  length (tasks (st w)) = MAX_TASKS ->
  log (tmUpdate run_cb sIdleTask w) =
    log w ++ ready_calls (st w) 0 MAX_TASKS ++
    (if nothing_ready (st w) && negb (truthy (taskExecuted (st w)))
     then [RunIdle] else []) /\
  (forall k, tasks (st (tmUpdate run_cb sIdleTask w)) !! k =
             consume_task <$> tasks (st w) !! k) /\
  nothing_ready (st (tmUpdate run_cb sIdleTask w)) = true.
Proof.
  intros Hlen.
  pose proof (for_loop_inv0 (fun j x =>
    length (tasks (st x)) = MAX_TASKS /\
    (forall k, tasks (st x) !! k =
               if (k <? j)%nat then consume_task <$> tasks (st w) !! k
               else tasks (st w) !! k) /\
    log x = log w ++ ready_calls (st w) 0 j)
    (update_step run_cb) MAX_TASKS w) as Hinv.
  cbv beta in Hinv. destruct Hinv as (HlenL & HtasksL & HlogL).
  - split; [done|]. split; [done|]. cbn [ready_calls]. by rewrite app_nil_r.
  - intros j x Hj (Hl & Hk & Hlg).
    destruct (update_step_pass j x ltac:(lia)) as [Ht Hlog].
    assert (tasks (st x) !! j = tasks (st w) !! j) as Hsame.
    { rewrite Hk. by destruct (Nat.ltb_spec j j); [lia|]. }
    assert (task_at j (st x) = task_at j (st w)) as Hat.
    { unfold task_at. by rewrite !list_lookup_total_alt, Hsame. }
    assert (task_ready j (st x) = task_ready j (st w)) as Hrd.
    { unfold task_ready. by rewrite Hat. }
    rewrite Hat in Ht. rewrite Hat, Hrd in Hlog.
    split; [by rewrite Ht, length_insert|]. split.
    + intros k. rewrite Ht. destruct (Nat.eq_dec j k) as [<-|Hne].
      * rewrite list_lookup_insert_eq by lia.
        destruct (Nat.ltb_spec j (S j)); [|lia].
        unfold task_at.
        by rewrite (list_lookup_lookup_total_lt (tasks (st w)) j) by lia.
      * rewrite list_lookup_insert_ne by done. rewrite Hk.
        destruct (Nat.ltb_spec k j), (Nat.ltb_spec k (S j)); try done; lia.
    + rewrite Hlog, Hlg, ready_calls_snoc. cbn [Nat.add]. by rewrite app_assoc.
  - assert (forall k, tasks (st (for_loop (update_step run_cb) 0 MAX_TASKS w)) !! k =
                      consume_task <$> tasks (st w) !! k) as Hall.
    { intros k. rewrite HtasksL. destruct (Nat.ltb_spec k MAX_TASKS); [done|].
      rewrite (proj2 (lookup_ge_None (tasks (st w)) k)) by lia. done. }
    assert (forall k, tasks (st (tmUpdate run_cb sIdleTask w)) !! k =
                      consume_task <$> tasks (st w) !! k) as Hfinal.
    { intros k. rewrite tmUpdate_eq.
      destruct (truthy (taskExecuted _)); [done|].
      by rewrite st_call, idle_keeps. }
    split; [|split; [done|]].
    + rewrite tmUpdate_eq. destruct (nothing_ready (st w)) eqn:Hn.
      * rewrite (update_loop_skip run_cb w Hn) in *. cbn [andb].
        assert (ready_calls (st w) 0 MAX_TASKS = []) as ->.
        { apply (app_inv_head (log w)). by rewrite app_nil_r. }
        destruct (truthy (taskExecuted (st w))); cbn [negb app].
        -- by rewrite app_nil_r.
        -- by rewrite log_call.
      * rewrite (update_loop_sets_flag run_cb w Hn).
        cbn [truthy Z.eqb negb andb]. by rewrite app_nil_r.
    + apply nothing_ready_spec. intros k Hk. unfold task_ready, task_at.
      rewrite list_lookup_total_alt, Hfinal.
      rewrite (list_lookup_lookup_total_lt (tasks (st w)) k) by lia.
      cbn [fmap option_fmap option_map default]. apply consume_task_not_ready.
Qed.

End UpdatePass.

(** ** The timer table *)

Lemma tmTimerDelete_found f s i :
  first_index (fun j => callback (timer_at j s) =? f) 0 MAX_TIMERS = Some i ->
  tmTimerDelete f s =
  (0, set_timer i (mkTimer (active (timer_at i s)) (start_time (timer_at i s))
                           (delay (timer_at i s)) 0) s).
Proof. intros E. unfold tmTimerDelete. by rewrite E. Qed.

Lemma tmTimerDelete_missing f s :
  first_index (fun j => callback (timer_at j s) =? f) 0 MAX_TIMERS = None ->
  tmTimerDelete f s = (-1, s).
Proof. intros E. unfold tmTimerDelete. by rewrite E. Qed.

Lemma timers_distinct_same_callbacks s s' :
  (forall j, callback (timer_at j s') = callback (timer_at j s)) ->
  timers_distinct s -> timers_distinct s'.
Proof.
  intros Hsame Hd a b Ha Hb Hab. rewrite !Hsame. by apply Hd.
Qed.

Lemma callback_set_timer_same i t s j :
  callback t = callback (timer_at i s) ->
  callback (timer_at j (set_timer i t s)) = callback (timer_at j s).
Proof.
  intros Ht. destruct (Nat.eq_dec i j) as [<-|Hne].
  - destruct (Nat.lt_ge_cases i (length (timers s))) as [Hlt|Hge].
    + by rewrite timer_at_set_timer_eq.
    + unfold timer_at, set_timer. cbn [timers]. by rewrite list_insert_ge.
  - by rewrite timer_at_set_timer_ne.
Qed.

Lemma timers_distinct_init : timers_distinct init_state.
Proof.
  intros a b Ha Hb Hab Hnn. exfalso. apply Hnn.
  do 5 (destruct a as [|a]; [reflexivity|]). unfold MAX_TIMERS in Ha. lia.
Qed.

(** X8: the timer table never holds a non-null function pointer twice:
    [tmTimerStartOnce] and [tmTimerDelete] keep the callbacks of the slots
    distinct, so that the slot [tmTimerStartOnce] re-arms or
    [tmTimerDelete] frees is the only one that holds the pointer. *)
Theorem timers_stay_distinct (s : State) (d : Z) (f : fptr) :
  wf s -> timers_distinct s ->
  timers_distinct (snd (tmTimerStartOnce d f s)) /\
  timers_distinct (snd (tmTimerDelete f s)) /\
  (forall i, (i < MAX_TIMERS)%nat -> f <> NULL ->
     callback (timer_at i s) = f -> sole_timer i f s).
Proof.
  intros [_ Hlen] Hd. split; [|split].
  - unfold tmTimerStartOnce.
    destruct (first_index (fun j => callback (timer_at j s) =? f) 0 MAX_TIMERS)
      as [i|] eqn:E1.
    + cbn [snd]. apply (timers_distinct_same_callbacks s); [|done].
      intros j. apply callback_set_timer_same. by destruct (truthy _).
    + destruct (first_index (fun j => callback (timer_at j s) =? 0) 0 MAX_TIMERS)
        as [i|] eqn:E2; [|done].
      cbn [snd].
      pose proof (proj1 (callback_eqb_none f s) E1) as Hfresh.
      apply (proj1 (callback_eqb_first 0 s i)) in E2 as (Hi & Hfree & _).
      intros a b Ha Hb Hab.
      destruct (Nat.eq_dec a i) as [->|Hai], (Nat.eq_dec b i) as [->|Hbi];
        try done.
      * rewrite timer_at_set_timer_eq by lia.
        rewrite timer_at_set_timer_ne by done. cbn [callback].
        intros _ Heq. by apply (Hfresh b).
      * rewrite timer_at_set_timer_ne by done.
        rewrite timer_at_set_timer_eq by lia. cbn [callback].
        intros _. by apply Hfresh.
      * rewrite !timer_at_set_timer_ne by done. by apply Hd.
  - unfold tmTimerDelete.
    destruct (first_index (fun j => callback (timer_at j s) =? f) 0 MAX_TIMERS)
      as [i|] eqn:E1; [|done].
    cbn [snd]. apply (proj1 (callback_eqb_first f s i)) in E1 as (Hi & _ & _).
    intros a b Ha Hb Hab.
    destruct (Nat.eq_dec a i) as [->|Hai], (Nat.eq_dec b i) as [->|Hbi];
      try done.
    + rewrite timer_at_set_timer_eq by lia. cbn [callback]. done.
    + rewrite timer_at_set_timer_ne by done.
      rewrite timer_at_set_timer_eq by lia. by cbn [callback].
    + rewrite !timer_at_set_timer_ne by done. by apply Hd.
  - intros i Hi Hnn Hheld j Hj Hji Heq.
    apply (Hd i j Hi Hj); [done | by rewrite Hheld | by rewrite Hheld, Heq].
Qed.

Lemma timers_stay_distinct_witness :
  timers_distinct
    (snd (tmTimerStartOnce 7 vTaskLedOff
            (snd (tmTimerStartOnce 5 vTaskLedOff init_state)))) /\
  sole_timer 0 vTaskLedOff (snd (tmTimerStartOnce 5 vTaskLedOff init_state)).
Proof.
  destruct (timers_stay_distinct init_state 5 vTaskLedOff wf_init_state
              timers_distinct_init) as (H1 & _ & _).
  destruct (timers_stay_distinct
              (snd (tmTimerStartOnce 5 vTaskLedOff init_state)) 7 vTaskLedOff)
    as (H2 & _ & H3).
  - split; reflexivity.
  - exact H1.
  - split; [exact H2|]. apply H3; [unfold MAX_TIMERS; lia | discriminate |].
    reflexivity.
Defined.

Lemma timers_hold_elem (fs : list fptr) (s : State) (j : nat) :
  timers_hold fs s -> (j < length fs)%nat -> (j < MAX_TIMERS)%nat ->
  callback (timer_at j s) ∈ fs.
Proof.
  intros Hh Hj HjM. rewrite (Hh j HjM).
  destruct (lookup_lt_is_Some_2 fs j Hj) as [x Hx].
  rewrite (nth_lookup_Some _ _ _ _ Hx). by eapply list_elem_of_lookup_2.
Qed.

Lemma timers_hold_free (fs : list fptr) (s : State) (j : nat) :
  timers_hold fs s -> (length fs <= j)%nat -> (j < MAX_TIMERS)%nat ->
  callback (timer_at j s) = NULL.
Proof.
  intros Hh Hj HjM. rewrite (Hh j HjM), nth_lookup.
  by rewrite (proj2 (lookup_ge_None fs j) Hj).
Qed.

Lemma timers_hold_start (fs : list fptr) (s : State) (d : Z) (f : fptr) :
  wf s -> timers_hold fs s -> (length fs < MAX_TIMERS)%nat ->
  Forall (fun g => g <> NULL) fs -> f <> NULL -> f ∉ fs ->
  tmTimerStartOnce d f s =
    (0, set_timer (length fs) (mkTimer 1 (millis s) d f) s) /\
  timers_hold (fs ++ [f])
    (set_timer (length fs) (mkTimer 1 (millis s) d f) s).
Proof.
  intros [_ Hlen] Hh Hk Hnn Hf Hnew. split.
  - apply tmTimerStartOnce_fresh; [|done|by apply (timers_hold_free fs)|].
    + intros j Hj. destruct (Nat.lt_ge_cases j (length fs)) as [Hlt|Hge].
      * intros Heq. apply Hnew. rewrite <- Heq. by apply timers_hold_elem.
      * by rewrite (timers_hold_free fs s j).
    + intros j Hj.
      pose proof (timers_hold_elem fs s j Hh Hj ltac:(lia)) as Hin.
      by apply (proj1 (Forall_forall _ fs) Hnn).
  - intros j Hj. destruct (Nat.eq_dec (length fs) j) as [<-|Hne].
    + rewrite timer_at_set_timer_eq by lia. cbn [callback].
      rewrite nth_lookup, list_lookup_middle; done.
    + rewrite timer_at_set_timer_ne by done. rewrite (Hh j Hj), !nth_lookup.
      destruct (Nat.lt_ge_cases j (length fs)) as [Hlt|Hge].
      * by rewrite lookup_app_l.
      * rewrite (proj2 (lookup_ge_None fs j) Hge).
        rewrite (proj2 (lookup_ge_None (fs ++ [f]) j)); [done|].
        rewrite length_app. cbn [length]. lia.
Qed.

Lemma start_timers_fill (l : list (Z * fptr)) :
  forall (fs : list fptr) (s : State),
    wf s -> timers_hold fs s ->
    (length fs + length l <= MAX_TIMERS)%nat ->
    Forall (fun g => g <> NULL) fs ->
    Forall (fun df => snd df <> NULL) l ->
    NoDup (fs ++ map snd l) ->
    fst (start_timers l s) = map (fun _ => 0) l /\
    wf (snd (start_timers l s)) /\
    timers_hold (fs ++ map snd l) (snd (start_timers l s)).
Proof.
  induction l as [|[d f] l IH]; intros fs s Hwf Hh Hk Hnn Hl Hnd.
  - cbn [start_timers map fst snd]. by rewrite app_nil_r.
  - cbn [length] in Hk. cbn [map snd] in Hnd.
    apply Forall_cons in Hl as [Hf Hl]. cbn [snd] in Hf.
    assert (f ∉ fs) as Hnew.
    { apply NoDup_app in Hnd as (_ & Hdisj & _). intros Hin.
      apply (Hdisj f Hin). apply list_elem_of_here. }
    destruct (timers_hold_start fs s d f Hwf Hh ltac:(lia) Hnn Hf Hnew)
      as [Hstart Hh'].
    cbn [start_timers]. rewrite Hstart.
    destruct (IH (fs ++ [f])
                (set_timer (length fs) (mkTimer 1 (millis s) d f) s))
      as (Hr & Hw & Hfin).
    + by apply wf_set_timer.
    + done.
    + rewrite length_app. cbn [length]. lia.
    + apply Forall_app. split; [done|]. by apply Forall_singleton.
    + done.
    + by rewrite <- app_assoc.
    + destruct (start_timers l _) as [ks s2]. cbn [fst snd] in *.
      rewrite Hr. split; [done|]. split; [done|].
      cbn [map snd]. by rewrite <- app_assoc in Hfin.
Qed.

Lemma timers_hold_init : timers_hold [] init_state.
Proof.
  intros j Hj. do 5 (destruct j as [|j]; [reflexivity|]).
  unfold MAX_TIMERS in Hj. lia.
Qed.

(** X9: the timer table has room for [MAX_TIMERS] callbacks.  From the
    empty table, [tmTimerStartOnce] for [MAX_TIMERS] non-null function
    pointers that differ from each other returns 0 every time; after that
    a call for any other function pointer returns -1 and changes nothing,
    while a call for one of the pointers in the table still returns 0. *)
Theorem tmTimerStartOnce_capacity (l : list (Z * fptr)) :
  length l = MAX_TIMERS ->
  Forall (fun df => snd df <> NULL) l ->
  NoDup (map snd l) ->
  fst (start_timers l init_state) = [0; 0; 0; 0; 0] /\
  (forall d g, g ∉ map snd l ->
     tmTimerStartOnce d g (snd (start_timers l init_state)) =
       (-1, snd (start_timers l init_state))) /\
  (forall d g, g ∈ map snd l ->
     fst (tmTimerStartOnce d g (snd (start_timers l init_state))) = 0).
Proof.
  intros Hlen Hnn Hnd.
  destruct (start_timers_fill l [] init_state wf_init_state timers_hold_init)
    as (Hr & Hw & Hh); [cbn [length]; lia | done | done | done |].
  cbn [app] in Hh.
  assert (length (map snd l) = MAX_TIMERS) as Hlen' by (by rewrite length_map).
  assert (Forall (fun g => g <> NULL) (map snd l)) as Hnn'.
  { apply Forall_fmap. by apply (Forall_impl _ _ _ Hnn). }
  revert Hh Hw. generalize (snd (start_timers l init_state)). intros s' Hh Hw.
  split; [|split].
  - rewrite Hr.
    destruct l as [|? [|? [|? [|? [|? [|? ?]]]]]]; try discriminate Hlen.
    reflexivity.
  - intros d g Hg. unfold tmTimerStartOnce.
    rewrite (proj2 (callback_eqb_none g s')).
    2:{ intros j Hj Heq. apply Hg. rewrite <- Heq.
        apply timers_hold_elem; [done | lia | done]. }
    rewrite (proj2 (callback_eqb_none 0 s')); [done|].
    intros j Hj.
    pose proof (timers_hold_elem (map snd l) s' j Hh ltac:(lia) Hj) as Hin.
    by apply (proj1 (Forall_forall _ _) Hnn').
  - intros d g Hg. unfold tmTimerStartOnce.
    destruct (first_index (fun j => callback (timer_at j s') =? g) 0 MAX_TIMERS)
      as [i|] eqn:E; [done|].
    exfalso. pose proof (proj1 (callback_eqb_none g s') E) as Hnone.
    apply list_elem_of_lookup_1 in Hg as [j Hj].
    pose proof (lookup_lt_Some _ _ _ Hj) as Hlt.
    apply (Hnone j); [lia|].
    rewrite (Hh j ltac:(lia)). by apply nth_lookup_Some.
Qed.

Lemma tmTimerStartOnce_capacity_witness :
  fst (start_timers (map (fun f => (10 * f, f)) [11; 12; 13; 14; 15]) init_state) =
    [0; 0; 0; 0; 0] /\
  fst (tmTimerStartOnce 30 16
         (snd (start_timers (map (fun f => (10 * f, f)) [11; 12; 13; 14; 15])
                 init_state))) = -1 /\
  fst (tmTimerStartOnce 30 13
         (snd (start_timers (map (fun f => (10 * f, f)) [11; 12; 13; 14; 15])
                 init_state))) = 0.
Proof.
  destruct (tmTimerStartOnce_capacity
              (map (fun f => (10 * f, f)) [11; 12; 13; 14; 15]))
    as (Hr & Hfull & Hheld).
  - reflexivity.
  - repeat constructor; cbn [snd]; discriminate.
  - cbn [map snd]. apply NoDup_ListNoDup. repeat constructor; cbn [In]; lia.
  - split; [exact Hr|]. split.
    + rewrite Hfull; [reflexivity|]. cbn [map snd].
      intros Hin%list_elem_of_In. cbn [In] in Hin. lia.
    + apply Hheld. cbn [map snd]. apply list_elem_of_In. cbn [In]. lia.
Defined.

(** ** Cancelling *)

Lemma no_timer_ext f s s' :
  timers s' = timers s -> no_timer f s -> no_timer f s'.
Proof. intros Heq Hno j Hj. unfold timer_at. rewrite Heq. by apply Hno. Qed.

Lemma no_task_same_funcs f s s' :
  (forall j, taskFunc (task_at j s') = taskFunc (task_at j s)) ->
  no_task f s -> no_task f s'.
Proof. intros Heq Hno j Hj. rewrite Heq. by apply Hno. Qed.

Lemma taskFunc_set_task_same i t s j :
  taskFunc t = taskFunc (task_at i s) ->
  taskFunc (task_at j (set_task i t s)) = taskFunc (task_at j s).
Proof.
  intros Ht. destruct (Nat.eq_dec i j) as [<-|Hne].
  - destruct (Nat.lt_ge_cases i (length (tasks s))) as [Hlt|Hge].
    + by rewrite task_at_set_task_eq.
    + unfold task_at, set_task. cbn [tasks]. by rewrite list_insert_ge.
  - by rewrite task_at_set_task_ne.
Qed.

Lemma taskFunc_tick_task t : taskFunc (tick_task t) = taskFunc t.
Proof.
  unfold tick_task. destruct (truthy _); [|done].
  destruct (_ <? _); [|done]. by destruct (_ =? _).
Qed.

Lemma taskFunc_tick_tasks s j :
  taskFunc (task_at j (tick_tasks s)) = taskFunc (task_at j s).
Proof.
  destruct (tick_tasks_frame s) as (_ & _ & _ & Hk).
  unfold task_at. rewrite !list_lookup_total_alt, Hk.
  destruct (_ <? _)%nat; [|done].
  destruct (tasks s !! j); [|done]. apply taskFunc_tick_task.
Qed.

Section CancelTimer.

Variable run_cb : fptr -> State -> State.
Variable sIdleTask : State -> State.
Variable f : fptr.

Hypothesis cb_no_timer : forall g s, no_timer f s -> no_timer f (run_cb g s).
Hypothesis idle_no_timer : forall s, no_timer f s -> no_timer f (sIdleTask s).

Lemma timer_step_no_timer (j : nat) (x : World) :
  (j < MAX_TIMERS)%nat -> no_timer f (st x) ->
  no_timer f (st (timer_step run_cb j x)) /\
  occurrences (FireTimer f) (log (timer_step run_cb j x)) =
    occurrences (FireTimer f) (log x).
Proof.
  intros Hj Hno. unfold timer_step. destruct (expired _ _); [|done].
  cbn [st log]. rewrite callback_after_clear.
  assert (no_timer f (set_timer j
            (mkTimer 0 (start_time (timer_at j (st x)))
               (delay (timer_at j (st x))) (callback (timer_at j (st x))))
            (st x))) as Hno1.
  { intros k Hk. rewrite callback_set_timer_same by done. by apply Hno. }
  destruct (truthy _); cbn [call st log]; [|done].
  split; [by apply cb_no_timer|].
  rewrite occurrences_snoc_ne; [done|].
  intros [= Heq]. by apply (Hno j Hj).
Qed.

Lemma tmTick_no_timer (w : World) :
  no_timer f (st w) ->
  no_timer f (st (tmTick run_cb w)) /\
  occurrences (FireTimer f) (log (tmTick run_cb w)) =
    occurrences (FireTimer f) (log w).
Proof.
  intros Hno.
  destruct (tick_tasks_frame (st w)) as (Htm & _).
  pose proof (for_loop_inv0 (fun _ x =>
    no_timer f (st x) /\
    occurrences (FireTimer f) (log x) = occurrences (FireTimer f) (log w))
    (timer_step run_cb) MAX_TIMERS (mkWorld (tick_tasks (st w)) (log w)))
    as Hinv.
  cbv beta in Hinv. destruct Hinv as [H1 H2].
  - rewrite st_mk, log_mk. split; [|done]. by apply (no_timer_ext f (st w)).
  - intros j x Hj [Hx Hc].
    destruct (timer_step_no_timer j x Hj Hx) as [G1 G2].
    split; [done|]. by rewrite G2.
  - rewrite tmTick_eq, st_mk, log_mk. unfold tmTimerProcess.
    split; [|done]. eapply no_timer_ext; [|exact H1].
    by rewrite timers_set_millis.
Qed.

Lemma tmUpdate_no_timer (w : World) :
  no_timer f (st w) ->
  no_timer f (st (tmUpdate run_cb sIdleTask w)) /\
  occurrences (FireTimer f) (log (tmUpdate run_cb sIdleTask w)) =
    occurrences (FireTimer f) (log w).
Proof.
  intros Hno. split; [|by apply tmUpdate_log].
  by apply (tmUpdate_preserves run_cb sIdleTask (no_timer f)).
Qed.

Lemma run_no_timer (ops : list op) :
  forall w : World,
    no_timer f (st w) ->
    occurrences (FireTimer f) (log (run run_cb sIdleTask w ops)) =
      occurrences (FireTimer f) (log w).
Proof.
  induction ops as [|o ops IH]; intros w Hno; [by rewrite run_nil|].
  destruct o.
  - rewrite run_Tick. destruct (tmTick_no_timer w Hno) as [H1 H2].
    by rewrite IH.
  - rewrite run_Update. destruct (tmUpdate_no_timer w Hno) as [H1 H2].
    by rewrite IH.
Qed.

(** X10: [tmTimerDelete] cancels a timer.  It frees the slot that holds
    the function pointer and leaves its [active], [start_time] and [delay]
    as they are; whether the timer was armed or not, no later tick calls
    the function pointer, as long as no callback arms it again. *)
Theorem tmTimerDelete_cancels (s : State) (i : nat) (lg : list event) :
  wf s -> f <> NULL -> (i < MAX_TIMERS)%nat ->
  callback (timer_at i s) = f -> sole_timer i f s ->
  fst (tmTimerDelete f s) = 0 /\
  timer_at i (snd (tmTimerDelete f s)) =
    mkTimer (active (timer_at i s)) (start_time (timer_at i s))
            (delay (timer_at i s)) NULL /\
  (forall j, j <> i -> timer_at j (snd (tmTimerDelete f s)) = timer_at j s) /\
  (forall ops,
     occurrences (FireTimer f)
       (log (run run_cb sIdleTask (mkWorld (snd (tmTimerDelete f s)) lg) ops)) =
     occurrences (FireTimer f) lg).
Proof.
  intros [_ Hlen] Hf Hi Hheld Hsole.
  rewrite (tmTimerDelete_found f s i).
  2:{ apply callback_eqb_first. split; [done|]. split; [done|].
      intros j Hj. apply Hsole; lia. }
  cbn [fst snd]. split; [done|].
  split; [by rewrite timer_at_set_timer_eq by lia|].
  split; [by intros j Hj; rewrite timer_at_set_timer_ne|].
  intros ops. rewrite run_no_timer; [by rewrite log_mk|].
  rewrite st_mk. intros j Hj. destruct (Nat.eq_dec j i) as [->|Hne].
  - rewrite timer_at_set_timer_eq by lia. cbn [callback]. by intros <-.
  - rewrite timer_at_set_timer_ne by done. by apply Hsole.
Qed.

End CancelTimer.

Section CancelTask.

Variable run_cb : fptr -> State -> State.
Variable sIdleTask : State -> State.
Variable f : fptr.

Hypothesis cb_no_task : forall g s, no_task f s -> no_task f (run_cb g s).
Hypothesis idle_no_task : forall s, no_task f s -> no_task f (sIdleTask s).

Lemma update_step_no_task (j : nat) (x : World) :
  (j < MAX_TASKS)%nat -> no_task f (st x) ->
  no_task f (st (update_step run_cb j x)) /\
  occurrences (RunTask f) (log (update_step run_cb j x)) =
    occurrences (RunTask f) (log x).
Proof.
  intros Hj Hno. unfold update_step. destruct (_ && _); [|done].
  cbn [call st log]. rewrite taskFunc_after_clear. split.
  - apply (no_task_same_funcs f
             (run_cb (taskFunc (task_at j (st x)))
                (set_task j
                   (mkTask (taskFunc (task_at j (st x)))
                      (period_ms (task_at j (st x)))
                      (delay_ms (task_at j (st x))) 0) (st x)))); [done|].
    apply cb_no_task.
    apply (no_task_same_funcs f (st x)); [|done].
    intros k. by apply taskFunc_set_task_same.
  - rewrite occurrences_snoc_ne; [done|].
    intros [= Heq]. by apply (Hno j Hj).
Qed.

Lemma tmUpdate_no_task (w : World) :
  no_task f (st w) ->
  no_task f (st (tmUpdate run_cb sIdleTask w)) /\
  occurrences (RunTask f) (log (tmUpdate run_cb sIdleTask w)) =
    occurrences (RunTask f) (log w).
Proof.
  intros Hno.
  pose proof (for_loop_inv0 (fun _ x =>
    no_task f (st x) /\
    occurrences (RunTask f) (log x) = occurrences (RunTask f) (log w))
    (update_step run_cb) MAX_TASKS w) as Hinv.
  cbv beta in Hinv. destruct Hinv as [H1 H2].
  - done.
  - intros j x Hj [Hx Hc].
    destruct (update_step_no_task j x Hj Hx) as [G1 G2].
    split; [done|]. by rewrite G2.
  - rewrite tmUpdate_eq. destruct (truthy (taskExecuted _)); [done|].
    rewrite st_call, log_call. split; [by apply idle_no_task|].
    by rewrite occurrences_snoc_ne.
Qed.

Lemma tmTick_no_task (w : World) :
  no_task f (st w) ->
  no_task f (st (tmTick run_cb w)) /\
  occurrences (RunTask f) (log (tmTick run_cb w)) =
    occurrences (RunTask f) (log w).
Proof.
  intros Hno. split; [|by apply tmTick_log].
  rewrite tmTick_eq, st_mk.
  apply (no_task_same_funcs f
           (st (tmTimerProcess run_cb (mkWorld (tick_tasks (st w)) (log w))))).
  { intros j. by rewrite task_at_set_millis. }
  apply (tmTimerProcess_preserves run_cb (no_task f)); [done | |].
  { intros k t s Hs. apply (no_task_same_funcs f s); [|done].
    intros j. by rewrite task_at_set_timer. }
  rewrite st_mk. apply (no_task_same_funcs f (st w)); [|done].
  intros j. apply taskFunc_tick_tasks.
Qed.

Lemma run_no_task (ops : list op) :
  forall w : World,
    no_task f (st w) ->
    occurrences (RunTask f) (log (run run_cb sIdleTask w ops)) =
      occurrences (RunTask f) (log w).
Proof.
  induction ops as [|o ops IH]; intros w Hno; [by rewrite run_nil|].
  destruct o.
  - rewrite run_Tick. destruct (tmTick_no_task w Hno) as [H1 H2].
    by rewrite IH.
  - rewrite run_Update. destruct (tmUpdate_no_task w Hno) as [H1 H2].
    by rewrite IH.
Qed.

(** X11: [tmDeleteTask] cancels a task: once the only slot that holds the
    function pointer is freed, no [tmUpdate] calls it, also when the task
    was flagged at the time of the delete, as long as no callback adds it
    again. *)
Theorem tmDeleteTask_cancels (s : State) (i : nat) (lg : list event) :
  wf s -> f <> NULL -> (i < MAX_TASKS)%nat ->
  taskFunc (task_at i s) = f ->
  (forall j, (j < MAX_TASKS)%nat -> j <> i -> taskFunc (task_at j s) <> f) ->
  fst (tmDeleteTask f s) = 0 /\
  forall ops,
    occurrences (RunTask f)
      (log (run run_cb sIdleTask (mkWorld (snd (tmDeleteTask f s)) lg) ops)) =
    occurrences (RunTask f) lg.
Proof.
  intros [Hlen _] Hf Hi Hheld Hsole.
  rewrite (tmDeleteTask_found f s i).
  2:{ apply taskFunc_eqb_first. split; [done|]. split; [done|].
      intros j Hj. apply Hsole; lia. }
  cbn [fst snd]. split; [done|].
  intros ops. rewrite run_no_task; [by rewrite log_mk|].
  rewrite st_mk. intros j Hj. destruct (Nat.eq_dec j i) as [->|Hne].
  - rewrite task_at_set_task_eq by lia. cbn [taskFunc]. by intros <-.
  - rewrite task_at_set_task_ne by done. by apply Hsole.
Qed.

End CancelTask.

(** ** Arming a timer again, and a delay of 0 *)

Section OneShotAgain.

Variable run_cb : fptr -> State -> State.
Variable sIdleTask : State -> State.
Variable i : nat.
Variable f : fptr.

Hypothesis cb_keeps : forall g, keeps_timer i f (run_cb g).
Hypothesis idle_keeps : keeps_timer i f sIdleTask.




End OneShotAgain.

(** ** Polling [tmDelay_ms] every tick *)

Section Polling.

Variable run_cb : fptr -> State -> State.

Hypothesis cb_keeps_millis : forall g, keeps_millis (run_cb g).

Lemma poll_each_tick_S (n : nat) (D ts : Z) (w : World) :
  poll_each_tick run_cb (S n) D ts w =
  fst (tmDelay_ms ts D (st (tmTick run_cb w))) ::
  poll_each_tick run_cb n D (snd (tmDelay_ms ts D (st (tmTick run_cb w))))
    (tmTick run_cb w).
Proof. cbn [poll_each_tick]. reflexivity. Qed.

(** X14: a loop that polls [tmDelay_ms] once per tick with a delay
    [D >= 1] gets true exactly every [D]-th tick, without drift and across
    the wrap of the clock: with [e < D] ticks already elapsed since the
    timestamp, the poll after [k + 1] further ticks is true exactly when
    [e + k + 1] is a multiple of [D]. *)
Theorem poll_each_tick_period (n : nat) :
  forall (D ts : Z) (w : World) (k : nat),
    1 <= D < 2 ^ 32 ->
    0 <= wrap32 (millis (st w) - ts) < D ->
    (k < n)%nat ->
    nth k (poll_each_tick run_cb n D ts w) false =
      ((wrap32 (millis (st w) - ts) + Z.of_nat k + 1) mod D =? 0).
Proof.
  induction n as [|n IH]; intros D ts w k HD He Hk; [lia|].
  rewrite poll_each_tick_S.
  pose proof (tmTick_millis run_cb cb_keeps_millis w) as Hm.
  assert (wrap32 (millis (st (tmTick run_cb w)) - ts) =
          wrap32 (millis (st w) - ts) + 1) as He1.
  { rewrite Hm, wrap32_succ_elapsed. apply wrap32_small. unfold u32. lia. }
  unfold tmDelay_ms. rewrite He1.
  revert Hm He1. generalize (tmTick run_cb w). intros w' Hm He1.
  set (e := wrap32 (millis (st w) - ts)) in *.
  destruct (Z.leb_spec D (e + 1)) as [Hle|Hgt]; cbn [fst snd].
  - assert (e + 1 = D) as HeD by lia.
    destruct k as [|k]; cbn [nth].
    + rewrite Z.add_0_r, HeD, Z_mod_same_full. reflexivity.
    + rewrite (IH D (millis (st w')) w' k HD); [| |lia].
      * rewrite Z.sub_diag. change (wrap32 0) with 0.
        replace (e + Z.of_nat (S k) + 1) with (0 + Z.of_nat k + 1 + 1 * D)
          by lia.
        by rewrite Z_mod_plus_full.
      * rewrite Z.sub_diag. change (wrap32 0) with 0. lia.
  - destruct k as [|k]; cbn [nth].
    + rewrite Z.add_0_r, Z.mod_small by lia.
      symmetry. apply Z.eqb_neq. lia.
    + rewrite (IH D ts w' k HD); [| |lia].
      * rewrite He1. do 2 f_equal. lia.
      * rewrite He1. lia.
Qed.

End Polling.

(** ** Scenarios of the further properties *)

Lemma arming_cb_keeps_tasks g : keeps_tasks (arming_cb g).
Proof.
  intros s. unfold arming_cb. destruct (g =? vTaskLedFlash); [|done].
  by rewrite tmTimerStartOnce_tasks.
Qed.

Lemma arming_cb_no_task f g s : no_task f s -> no_task f (arming_cb g s).
Proof.
  intros Hno j Hj. unfold task_at. rewrite arming_cb_keeps_tasks.
  by apply Hno.
Qed.

Lemma retiming_cb_no_timer f g s : no_timer f s -> no_timer f (retiming_cb g s).
Proof.
  intros Hno. apply (no_timer_ext f s); [|done].
  unfold retiming_cb. destruct (g =? vTaskKey); [|done].
  apply tmUpdateTask_timers.
Qed.

Lemma tmUpdate_idle_rule_witness :
  occurrences RunIdle (log (tmUpdate quiet_cb quiet_idle flagged_world)) =
    occurrences RunIdle (log flagged_world).
Proof.
  refine (proj1 (proj2 (proj2 (tmUpdate_idle_rule quiet_cb quiet_idle
                                 flagged_world)) _)).
  vm_compute. reflexivity.
Defined.

Lemma run_keeps_countdown_witness :
  exists t',
    tasks (st (run arming_cb quiet_idle (mkWorld demo_state [])
                 [Tick; Update; Tick])) !! 0%nat = Some t' /\
    taskFunc t' = vTaskLed /\ period_ms t' = 500 /\ countdown_ok t'.
Proof.
  apply (run_keeps_countdown arming_cb quiet_idle 0
           (arming_cb_keeps_task 0) (quiet_idle_keeps_task 0)
           [Tick; Update; Tick] (mkWorld demo_state [])
           (mkTask vTaskLed 500 500 0)).
  - unfold MAX_TASKS. lia.
  - reflexivity.
  - cbn [period_ms]. lia.
  - unfold countdown_ok. cbn [period_ms delay_ms]. lia.
Defined.

Lemma tmUpdateTask_restarts_countdown_witness :
  isReady (task_at 0
    (st (tmTick arming_cb
           (run arming_cb quiet_idle
              (mkWorld (snd (tmUpdateTask vTaskLed 2 demo_state)) [])
              [Update; Tick])))) = 1.
Proof.
  refine (proj2 (proj2 (tmUpdateTask_restarts_countdown arming_cb quiet_idle 0
            (arming_cb_keeps_task 0) (quiet_idle_keeps_task 0)
            vTaskLed 2 demo_state [] wf_demo_state _ _ _ _ _))
          [Update; Tick] _).
  - discriminate.
  - lia.
  - unfold MAX_TASKS. lia.
  - reflexivity.
  - intros j Hj. lia.
  - reflexivity.
Defined.

Lemma get_millis_counts_ticks_witness :
  get_millis
    (st (run arming_cb quiet_idle
           (mkWorld (set_millis (2 ^ 32 - 1) demo_state) [])
           [Tick; Update; Tick])) = 1.
Proof.
  assert (u32 (millis (st (mkWorld (set_millis (2 ^ 32 - 1) demo_state) []))))
    as Hm.
  { vm_compute. split; [discriminate | reflexivity]. }
  rewrite (proj1 (get_millis_counts_ticks arming_cb quiet_idle
                    arming_cb_keeps_millis (fun s => eq_refl)
                    [Tick; Update; Tick]
                    (mkWorld (set_millis (2 ^ 32 - 1) demo_state) []) Hm)).
  vm_compute. reflexivity.
Defined.

Lemma tmUpdate_runs_flagged_in_order_witness :
  log (tmUpdate arming_cb quiet_idle
         (tmTick arming_cb (mkWorld demo_state []))) = [RunTask vTaskKey] /\
  nothing_ready
    (st (tmUpdate arming_cb quiet_idle
           (tmTick arming_cb (mkWorld demo_state [])))) = true.
Proof.
  destruct (tmUpdate_runs_flagged_in_order arming_cb quiet_idle
              arming_cb_keeps_tasks (fun s => eq_refl)
              (tmTick arming_cb (mkWorld demo_state []))) as (Hlog & _ & Hnone).
  - vm_compute. reflexivity.
  - split; [|exact Hnone]. rewrite Hlog. vm_compute. reflexivity.
Defined.

Lemma tmTimerDelete_cancels_witness :
  occurrences (FireTimer vTaskLedOff)
    (log (run retiming_cb quiet_idle
            (mkWorld (snd (tmTimerDelete vTaskLedOff (st armed_world))) [])
            [Tick; Tick; Tick; Tick; Tick; Tick; Tick; Tick; Tick; Tick])) = 0%nat.
Proof.
  refine (proj2 (proj2 (proj2 (tmTimerDelete_cancels retiming_cb quiet_idle
            vTaskLedOff (retiming_cb_no_timer vTaskLedOff) (fun s H => H)
            (st armed_world) 0 [] wf_armed_world _ _ _ armed_world_sole)))
          [Tick; Tick; Tick; Tick; Tick; Tick; Tick; Tick; Tick; Tick]).
  - discriminate.
  - unfold MAX_TIMERS. lia.
  - vm_compute. reflexivity.
Defined.

Lemma tmDeleteTask_cancels_witness :
  occurrences (RunTask vTaskKey)
    (log (run arming_cb quiet_idle
            (mkWorld (snd (tmDeleteTask vTaskKey demo_state)) [])
            [Tick; Update; Tick; Update])) = 0%nat.
Proof.
  refine (proj2 (tmDeleteTask_cancels arming_cb quiet_idle vTaskKey
            (arming_cb_no_task vTaskKey) (fun s H => H)
            demo_state 1 [] wf_demo_state _ _ _ _)
          [Tick; Update; Tick; Update]).
  - discriminate.
  - unfold MAX_TASKS. lia.
  - reflexivity.
  - intros j Hj Hne. destruct j as [|j]; [vm_compute; discriminate|].
    destruct j as [|j]; [by destruct Hne|].
    do 8 (destruct j as [|j]; [vm_compute; discriminate|]).
    unfold MAX_TASKS in Hj. lia.
Defined.





Lemma poll_each_tick_period_witness :
  nth 2 (poll_each_tick arming_cb 7 3 (2 ^ 32 - 2)
           (mkWorld (set_millis (2 ^ 32 - 2) demo_state) [])) false = true /\
  nth 3 (poll_each_tick arming_cb 7 3 (2 ^ 32 - 2)
           (mkWorld (set_millis (2 ^ 32 - 2) demo_state) [])) false = false.
Proof.
  split.
  - rewrite (poll_each_tick_period arming_cb arming_cb_keeps_millis 7 3
               (2 ^ 32 - 2) (mkWorld (set_millis (2 ^ 32 - 2) demo_state) []) 2).
    + vm_compute. reflexivity.
    + lia.
    + vm_compute. split; [discriminate | reflexivity].
    + lia.
  - rewrite (poll_each_tick_period arming_cb arming_cb_keeps_millis 7 3
               (2 ^ 32 - 2) (mkWorld (set_millis (2 ^ 32 - 2) demo_state) []) 3).
    + vm_compute. reflexivity.
    + lia.
    + vm_compute. split; [discriminate | reflexivity].
    + lia.
Defined.
